(** * binance-db: the download orchestration engine

    A shallow embedding of [src/utils.py], [src/downloader.py] and
    [src/main.py].  Python [str] and [bytes] values are byte strings;
    the file system is a finite map from paths to files; the remote store
    is the queue of results that the next HTTP requests will get; every
    effectful function runs in a small monad that threads the machine
    state, may raise a Python exception, and emits the observable events
    (sleeps, HTTP requests, log records) in the order the code performs
    them. *)

From stdpp Require Import gmap strings list.
From Stdlib Require Import Ascii ZArith QArith Lia.
From Equations Require Import Equations.

Set Default Proof Using "Type".

(* ================================================================== *)
(** ** Byte strings *)

Definition LF : ascii := ascii_of_nat 10.
Definition CR : ascii := ascii_of_nat 13.
Definition SLASH : ascii := ascii_of_nat 47.

Definition ascii_eqb (a b : ascii) : bool := bool_decide (a = b).

Definition str_in (s : string) (l : list string) : bool :=
  bool_decide (s ∈ l).

Definition starts_with_slash (s : string) : bool :=
  match s with
  | String c _ => ascii_eqb c SLASH
  | EmptyString => false
  end.

Fixpoint ends_with_slash (s : string) : bool :=
  match s with
  | EmptyString => false
  | String c EmptyString => ascii_eqb c SLASH
  | String _ r => ends_with_slash r
  end.

(** [os.path.join] on POSIX, two components at a time: an absolute second
    component discards the first, otherwise one separator is put between
    them unless the first is empty or already ends with one. *)
Definition path_join2 (a b : string) : string :=
  if starts_with_slash b then b
  else if bool_decide (a = "") || ends_with_slash a then a +:+ b
  else a +:+ "/" +:+ b.

Definition os_path_join (a : string) (rest : list string) : string :=
  foldl path_join2 a rest.

(** [os.path.basename]: what follows the last separator. *)
Fixpoint basename_from (acc s : string) : string :=
  match s with
  | EmptyString => acc
  | String c r =>
      if ascii_eqb c SLASH then basename_from "" r
      else basename_from (acc +:+ String c "") r
  end.

Definition os_path_basename (p : string) : string := basename_from "" p.

(** Strict UTF-8, as Python's [utf-8] codec decodes it: shortest forms
    only, no surrogates, nothing above U+10FFFF. *)
Module Utf8.

Definition between (lo hi b : N) : bool := ((lo <=? b) && (b <=? hi))%N.
Definition cont (b : N) : bool := between 128 191 b.

Definition second_of_three (b0 b1 : N) : bool :=
  if (b0 =? 224)%N then between 160 191 b1
  else if (b0 =? 237)%N then between 128 159 b1
  else cont b1.

Definition second_of_four (b0 b1 : N) : bool :=
  if (b0 =? 240)%N then between 144 191 b1
  else if (b0 =? 244)%N then between 128 143 b1
  else cont b1.

Fixpoint valid (bs : list N) : bool :=
  match bs with
  | [] => true
  | b0 :: r0 =>
      if (b0 <? 128)%N then valid r0
      else if between 194 223 b0 then
        match r0 with
        | b1 :: r1 => cont b1 && valid r1
        | _ => false
        end
      else if between 224 239 b0 then
        match r0 with
        | b1 :: b2 :: r2 => second_of_three b0 b1 && cont b2 && valid r2
        | _ => false
        end
      else if between 240 244 b0 then
        match r0 with
        | b1 :: b2 :: b3 :: r3 =>
            second_of_four b0 b1 && cont b2 && cont b3 && valid r3
        | _ => false
        end
      else false
  end.

Fixpoint bytes (s : string) : list N :=
  match s with
  | EmptyString => []
  | String c r => N_of_ascii c :: bytes r
  end.

Definition decodes (s : string) : bool := valid (bytes s).

End Utf8.

(** [f.readlines()] of a file opened in text mode with universal newlines:
    a line ends at LF, at CR LF or at a lone CR, and a last line without a
    terminator still counts.  Multi-byte UTF-8 sequences hold no byte
    below 128, so the lines can be cut on the bytes. *)
Fixpoint readlines_from (cur s : string) : list string :=
  match s with
  | EmptyString => if bool_decide (cur = "") then [] else [cur]
  | String c r =>
      if ascii_eqb c LF then (cur +:+ String LF "") :: readlines_from "" r
      else if ascii_eqb c CR then
        match r with
        | String c' r' =>
            if ascii_eqb c' LF
            then (cur +:+ String LF "") :: readlines_from "" r'
            else (cur +:+ String LF "") :: readlines_from "" r
        | EmptyString => [cur +:+ String LF ""]
        end
      else readlines_from (cur +:+ String c "") r
  end.

Definition text_lines (s : string) : list string := readlines_from "" s.

(* ================================================================== *)
(** ** Exceptions, events and the machine state *)

Inductive exn : Type :=
| ValueError
| IndexError
| OverflowError
| UnicodeDecodeError
| FileNotFoundError
| PermissionError
| BadZipFile
| ZipExtractError
| ConnectionError
| HTTPError (status : Z)
| Exception.

(** [requests.exceptions.RequestException] and its subclasses. *)
Definition is_RequestException (e : exn) : bool :=
  match e with
  | ConnectionError | HTTPError _ => true
  | _ => false
  end.

Definition is_BadZipFile (e : exn) : bool :=
  match e with
  | BadZipFile => true
  | _ => false
  end.

Definition any_exception (e : exn) : bool := true.

Inductive level : Type := DEBUG | INFO | WARNING | ERROR.

(** The log records, one constructor per message of the code (the four
    lines of the final summary are one record). *)
Inductive message : Type :=
| MsgSkipping (csv_basename : string)
| MsgDownloading (attempt total : Z) (url : string)
| MsgNotAvailable (url : string)
| MsgDownloaded (size : Z) (zip_filename : string)
| MsgExtracted (csv_filename : string)
| MsgDeletedZip (zip_filename : string)
| MsgExtractFailed (zip_filename : string)
| MsgAttemptFailed (attempt : Z) (e : exn)
| MsgRetrying (seconds : Q)
| MsgAllAttemptsFailed (url : string)
| MsgUnexpected (e : exn)
| MsgErrorInDownloadFile (e : exn)
| MsgCorruptedZip (zip_path : string)
| MsgExtractError (zip_path : string) (e : exn)
| MsgNoIntervals (data_type : string)
| MsgProcessing (symbol date : string)
| MsgCompleted (symbol date : string) (success_count total_count : Z)
| MsgPartial (symbol date : string) (success_count total_count : Z)
| MsgTaskFailed (symbol date : string) (e : exn)
| MsgDateRange (days : Z) (first last : string)
| MsgFetchingAllPairs
| MsgFoundPairs (n : Z)
| MsgFetchPairsFailed (e : exn)
| MsgUsingPairs (n : Z)
| MsgGenerated (n : Z)
| MsgStarting (workers : Z)
| MsgProgress (completed total successful : Z)
| MsgSummary (total successful : Z) (percent : Q)
| MsgNoTasks
| MsgStarted
| MsgConfigLoaded
| MsgFinished
| MsgMainUnexpected (e : exn).

(** Where a [time.sleep] is called from: the throttle before a request
    (line 76) or the pause before a retry (line 118). *)
Inductive sleep_site : Type := Throttle | Backoff.

Inductive event : Type :=
| EvSleep (site : sleep_site) (seconds : Q)
| EvGet (url : string)
| EvLog (lvl : level) (msg : message).

Record file : Type := File { f_data : string; f_readable : bool }.

(** What the server streams back: a status, the [content-length] header
    as [int] reads it (0 when the header is missing, [None] when it is not
    a number) and the chunks of the body; [body_complete = false] is a
    connection that breaks after the chunks. *)
Record response : Type := Response {
  status_code : Z;
  content_length : option Z;
  body_chunks : list string;
  body_complete : bool
}.

Inductive http_result : Type :=
| NetError
| NetResponse (r : response).

(** [st_files]: the regular files under their paths (directories are
    implicit: [os.makedirs] always finds room).  [st_pinned]: the paths
    the operating system refuses to unlink.  [st_net]: what the coming
    HTTP requests of the download session get, first request first; once
    it is used up a request meets a connection error.  [st_exchange]: the
    sorted list of trading pairs the exchange-information endpoint
    answers with, or [None] when that call fails.  [st_today]: the
    current date, as a proleptic Gregorian ordinal. *)
Record state : Type := State {
  st_files : gmap string file;
  st_pinned : gset string;
  st_net : list http_result;
  st_exchange : option (list string);
  st_today : Z
}.

Definition set_files (f : gmap string file → gmap string file) (s : state) : state :=
  {| st_files := f (st_files s); st_pinned := st_pinned s; st_net := st_net s;
     st_exchange := st_exchange s; st_today := st_today s |}.

Definition set_net (n : list http_result) (s : state) : state :=
  {| st_files := st_files s; st_pinned := st_pinned s; st_net := n;
     st_exchange := st_exchange s; st_today := st_today s |}.

Inductive outcome (A : Type) : Type :=
| Return (a : A)
| Raise (e : exn).
Arguments Return {A} a.
Arguments Raise {A} e.

(** A computation: from a state to its outcome, the state it leaves and
    the events it emitted, oldest first. *)
Definition M (A : Type) : Type := state → outcome A * state * list event.

Definition ret {A} (a : A) : M A := λ s, (Return a, s, []).
Definition raise {A} (e : exn) : M A := λ s, (Raise e, s, []).

(** [after t r]: the result [r] of a later step, with the events [t] of
    the steps before it put in front. *)
Definition after {A} (t : list event) (r : outcome A * state * list event)
    : outcome A * state * list event :=
  (r.1.1, r.1.2, t ++ r.2).

Definition bind {A B} (m : M A) (k : A → M B) : M B :=
  λ s, match m s with
       | (Return a, s1, t1) => after t1 (k a s1)
       | (Raise e, s1, t1) => (Raise e, s1, t1)
       end.

(** [try: m except <class> as e: h e]; an exception that [h] raises, or one
    that is not of the class, goes on to the enclosing handler. *)
Definition try_except {A} (m : M A) (cls : exn → bool) (h : exn → M A) : M A :=
  λ s, match m s with
       | (Return a, s1, t1) => (Return a, s1, t1)
       | (Raise e, s1, t1) =>
           if cls e then after t1 (h e s1) else (Raise e, s1, t1)
       end.

Definition emit (e : event) : M unit := λ s, (Return tt, s, [e]).
Definition get_state : M state := λ s, (Return s, s, []).
Definition modify (f : state → state) : M unit := λ s, (Return tt, f s, []).

Global Instance M_ret : MRet M := @ret.
Global Instance M_bind : MBind M := λ A B k m, bind m k.

(** [x <- m ;; k] runs [m] first; stdpp's [m ;; k] drops its result. *)
Notation "x <- m ;; k" := (bind m (λ x, k))
  (at level 100, m at next level, right associativity, only parsing).

Definition log (lvl : level) (msg : message) : M unit := emit (EvLog lvl msg).
Definition time_sleep (site : sleep_site) (seconds : Q) : M unit :=
  emit (EvSleep site seconds).

(** *** The file system calls *)

Definition os_path_exists (p : string) : M bool :=
  s <- get_state ;; ret (bool_decide (is_Some (st_files s !! p))).

Definition os_path_getsize (p : string) : M Z :=
  s <- get_state ;;
  match st_files s !! p with
  | Some f => ret (Z.of_nat (String.length (f_data f)))
  | None => raise FileNotFoundError
  end.

(** [open(p, 'r', encoding='utf-8')] followed by [readlines()]. *)
Definition open_readlines (p : string) : M (list string) :=
  s <- get_state ;;
  match st_files s !! p with
  | None => raise FileNotFoundError
  | Some f =>
      if negb (f_readable f) then raise PermissionError
      else if negb (Utf8.decodes (f_data f)) then raise UnicodeDecodeError
      else ret (text_lines (f_data f))
  end.

(** [open(p, 'wb')] and the writes that follow: the file is created or
    truncated, an existing file keeps its permissions. *)
Definition write_bytes (p data : string) (files : gmap string file) : gmap string file :=
  match files !! p with
  | Some f => <[p := File data (f_readable f)]> files
  | None => <[p := File data true]> files
  end.

Definition open_write (p data : string) : M unit :=
  modify (set_files (write_bytes p data)).

Definition os_remove (p : string) : M unit :=
  s <- get_state ;;
  if bool_decide (p ∈ st_pinned s) then raise PermissionError
  else match st_files s !! p with
       | None => raise FileNotFoundError
       | Some _ => modify (set_files (delete p))
       end.

(** [os.makedirs(directory, exist_ok=True)]. *)
Definition ensure_directory_exists (directory : string) : M unit := ret tt.

(** [try: m except C1 as e: h1 e except C2 as e: h2 e]: the first clause
    whose class matches handles the exception, and what a handler raises
    is not offered to its sibling. *)
Definition try_except2 {A} (m : M A)
    (cls1 : exn → bool) (h1 : exn → M A)
    (cls2 : exn → bool) (h2 : exn → M A) : M A :=
  try_except m (λ e, cls1 e || cls2 e) (λ e, if cls1 e then h1 e else h2 e).

Definition lift {A} (o : outcome A) : M A :=
  match o with
  | Return a => ret a
  | Raise e => raise e
  end.

(* ================================================================== *)
(** ** Dates: the parts of [datetime] that [generate_date_range] uses

    A [datetime] at midnight is its proleptic Gregorian ordinal, day 1
    being 0001-01-01; the arithmetic follows CPython's [datetime.py]. *)
Module Calendar.

Local Open Scope Z_scope.

Definition MINYEAR : Z := 1.
Definition MAXYEAR : Z := 9999.

Definition is_leap (year : Z) : bool :=
  (year mod 4 =? 0) && (negb (year mod 100 =? 0) || (year mod 400 =? 0)).

Definition days_before_year (year : Z) : Z :=
  let y := year - 1 in
  y * 365 + y / 4 - y / 100 + y / 400.

Definition DAYS_IN_MONTH : list Z :=
  [-1; 31; 28; 31; 30; 31; 30; 31; 31; 30; 31; 30; 31].

Definition DAYS_BEFORE_MONTH : list Z :=
  [-1; 0; 31; 59; 90; 120; 151; 181; 212; 243; 273; 304; 334].

Definition table (t : list Z) (i : Z) : Z := default 0 (t !! Z.to_nat i).

Definition days_in_month (year month : Z) : Z :=
  if (month =? 2) && is_leap year then 29 else table DAYS_IN_MONTH month.

Definition days_before_month (year month : Z) : Z :=
  table DAYS_BEFORE_MONTH month
  + (if (month >? 2) && is_leap year then 1 else 0).

Definition ymd2ord (year month day : Z) : Z :=
  days_before_year year + days_before_month year month + day.

Definition DI400Y : Z := days_before_year 401.
Definition DI100Y : Z := days_before_year 101.
Definition DI4Y : Z := days_before_year 5.

(** The last day a [datetime] can hold, 9999-12-31. *)
Definition MAX_ORDINAL : Z := ymd2ord MAXYEAR 12 31.

Definition ord2ymd (ordinal : Z) : Z * Z * Z :=
  let n := ordinal - 1 in
  let n400 := n / DI400Y in
  let n := n mod DI400Y in
  let year := n400 * 400 + 1 in
  let n100 := n / DI100Y in
  let n := n mod DI100Y in
  let n4 := n / DI4Y in
  let n := n mod DI4Y in
  let n1 := n / 365 in
  let n := n mod 365 in
  let year := year + n100 * 100 + n4 * 4 + n1 in
  if (n1 =? 4) || (n100 =? 4) then (year - 1, 12, 31)
  else
    let leapyear := (n1 =? 3) && (negb (n4 =? 24) || (n100 =? 3)) in
    let month := Z.shiftr (n + 50) 5 in
    let preceding :=
      table DAYS_BEFORE_MONTH month + (if (month >? 2) && leapyear then 1 else 0) in
    if preceding >? n then
      let month := month - 1 in
      let preceding :=
        preceding
        - (table DAYS_IN_MONTH month + (if (month =? 2) && leapyear then 1 else 0)) in
      (year, month, n - preceding + 1)
    else (year, month, n - preceding + 1).

Definition digit_char (d : Z) : ascii := ascii_of_nat (48 + Z.to_nat d).

(** A non-negative number in [width] decimal digits, zero filled. *)
Fixpoint zero_padded (width : nat) (n : Z) : string :=
  match width with
  | O => ""
  | S w => zero_padded w (n / 10) +:+ String (digit_char (n mod 10)) ""
  end.

(** [strftime("%Y-%m-%d")]. *)
Definition strftime (ordinal : Z) : string :=
  let '(y, m, d) := ord2ymd ordinal in
  zero_padded 4 y +:+ "-" +:+ zero_padded 2 m +:+ "-" +:+ zero_padded 2 d.

Definition digit_value (c : ascii) : option Z :=
  let n := Z.of_nat (nat_of_ascii c) in
  if (48 <=? n) && (n <=? 57) then Some (n - 48) else None.

Definition SPACE : ascii := ascii_of_nat 32.
Definition HYPHEN : ascii := ascii_of_nat 45.

(** The directive [%m]: [1[0-2]|0[1-9]|[1-9]], here on the whole field
    between the two hyphens. *)
Definition month_field (s : string) : option Z :=
  match s with
  | String a EmptyString =>
      match digit_value a with
      | Some v => if 1 <=? v then Some v else None
      | None => None
      end
  | String a (String b EmptyString) =>
      match digit_value a, digit_value b with
      | Some 0, Some v => if 1 <=? v then Some v else None
      | Some 1, Some v => if v <=? 2 then Some (10 + v) else None
      | _, _ => None
      end
  | _ => None
  end.

(** The directive [%d]: [3[01]|[12]\d|0[1-9]|[1-9]| [1-9]], with nothing
    left over after it. *)
Definition day_field (s : string) : option Z :=
  match s with
  | String a EmptyString =>
      match digit_value a with
      | Some v => if 1 <=? v then Some v else None
      | None => None
      end
  | String a (String b EmptyString) =>
      if ascii_eqb a SPACE then
        match digit_value b with
        | Some v => if 1 <=? v then Some v else None
        | None => None
        end
      else
        match digit_value a, digit_value b with
        | Some 0, Some v => if 1 <=? v then Some v else None
        | Some 1, Some v => Some (10 + v)
        | Some 2, Some v => Some (20 + v)
        | Some 3, Some v => if v <=? 1 then Some (30 + v) else None
        | _, _ => None
        end
  | _ => None
  end.

(** Cuts [s] at its first hyphen. *)
Fixpoint split_hyphen (s : string) : option (string * string) :=
  match s with
  | EmptyString => None
  | String c r =>
      if ascii_eqb c HYPHEN then Some ("", r)
      else match split_hyphen r with
           | Some (a, b) => Some (String c a, b)
           | None => None
           end
  end.

Definition year_field (s : string) : option Z :=
  match s with
  | String a (String b (String c (String d EmptyString))) =>
      match digit_value a, digit_value b, digit_value c, digit_value d with
      | Some va, Some vb, Some vc, Some vd =>
          Some (va * 1000 + vb * 100 + vc * 10 + vd)
      | _, _, _, _ => None
      end
  | _ => None
  end.

(** [datetime.strptime(s, "%Y-%m-%d")]: the ordinal of the day, or
    [None] where Python raises [ValueError]. *)
Definition strptime (s : string) : option Z :=
  match split_hyphen s with
  | None => None
  | Some (ys, rest) =>
      match split_hyphen rest with
      | None => None
      | Some (ms, ds) =>
          match year_field ys, month_field ms, day_field ds with
          | Some y, Some m, Some d =>
              if (MINYEAR <=? y) && (d <=? days_in_month y m)
              then Some (ymd2ord y m d)
              else None
          | _, _, _ => None
          end
      end
  end.

Definition lower_char (c : ascii) : ascii :=
  let n := nat_of_ascii c in
  if ((65 <=? n) && (n <=? 90))%nat then ascii_of_nat (n + 32) else c.

(** [str.lower()]. *)
Fixpoint lower (s : string) : string :=
  match s with
  | EmptyString => ""
  | String c r => String (lower_char c) (lower r)
  end.

End Calendar.

(* ================================================================== *)
(** ** utils.py *)

Definition INTERVAL_TYPES : list string :=
  ["indexPriceKlines"; "klines"; "markPriceKlines"; "premiumIndexKlines"].

Definition build_download_url (base_url data_type symbol date : string)
    (interval : option string) : outcome string :=
  if str_in data_type INTERVAL_TYPES then
    match interval with
    | None => Raise ValueError
    | Some i =>
        Return (base_url +:+ data_type +:+ "/" +:+ symbol +:+ "/" +:+ i +:+ "/"
                +:+ symbol +:+ "-" +:+ i +:+ "-" +:+ date +:+ ".zip")
    end
  else
    Return (base_url +:+ data_type +:+ "/" +:+ symbol +:+ "/"
            +:+ symbol +:+ "-" +:+ data_type +:+ "-" +:+ date +:+ ".zip").

(** Python's truth test on an optional string ([if interval:]): [None] and
    the empty string are both false. *)
Definition if_truthy (interval : option string) : option string :=
  match interval with
  | Some EmptyString => None
  | other => other
  end.

Definition get_output_filename (symbol data_type date : string)
    (interval : option string) (extension : string) : string :=
  match if_truthy interval with
  | Some i =>
      symbol +:+ "-" +:+ data_type +:+ "-" +:+ i +:+ "-" +:+ date +:+ "." +:+ extension
  | None =>
      symbol +:+ "-" +:+ data_type +:+ "-" +:+ date +:+ "." +:+ extension
  end.

Definition get_file_directory (data_type symbol : string)
    (interval : option string) (base_dir : string) : string :=
  match if_truthy interval with
  | Some i => os_path_join base_dir [data_type; symbol; i]
  | None => os_path_join base_dir [data_type; symbol]
  end.

Definition is_download_needed (csv_path : string) (overwrite_existing : bool) : M bool :=
  if overwrite_existing then mret true
  else
    present <- os_path_exists csv_path ;;
    if negb present then mret true
    else
      try_except
        (file_size <- os_path_getsize csv_path ;;
         if (file_size <? 100)%Z then mret true
         else
           lines <- open_readlines csv_path ;;
           mret (Z.of_nat (length lines) <=? 1)%Z)
        any_exception
        (λ _, mret true).

(** The [while current <= end] loop of [generate_date_range]; adding a
    day to the last representable date raises [OverflowError]. *)
Equations? date_loop (current end_ : Z) (dates : list string) : outcome (list string)
  by wf (Z.to_nat (end_ + 1 - current)) lt :=
  date_loop current end_ dates with decide (current ≤ end_)%Z => {
    | left _ with decide (current + 1 ≤ Calendar.MAX_ORDINAL)%Z => {
        | left _ => date_loop (current + 1) end_ (dates ++ [Calendar.strftime current]);
        | right _ => Raise OverflowError };
    | right _ => Return dates }.
Proof. lia. Qed.

Definition datetime_now_strftime : M string :=
  s <- get_state ;; ret (Calendar.strftime (st_today s)).

Definition datetime_strptime (date_str : string) : M Z :=
  match Calendar.strptime date_str with
  | Some d => ret d
  | None => raise ValueError
  end.

Definition generate_date_range (start_date end_date : string) : M (list string) :=
  end_date <- (if bool_decide (Calendar.lower end_date = "latest")
               then datetime_now_strftime
               else ret end_date) ;;
  start <- datetime_strptime start_date ;;
  end_ <- datetime_strptime end_date ;;
  lift (date_loop start end_ []).

(** The exchange-information call; the [except] clause turns whatever
    went wrong into a plain [Exception]. *)
Definition get_all_trading_pairs : M (list string) :=
  s <- get_state ;;
  match st_exchange s with
  | Some symbols => ret symbols
  | None => raise Exception
  end.

(* ================================================================== *)
(** ** downloader.py *)

Record config : Type := Config {
  base_url : string;
  output_directory : string;
  log_directory : string;
  retry_attempts : Z;
  retry_delay : Q;
  rate_limit_delay : Q;
  chunk_size : Z;
  max_concurrent_downloads : Z;
  auto_extract : bool;
  delete_zip : bool;
  overwrite_existing : bool;
  start_date : string;
  end_date : string;
  trading_pairs : list string;
  data_types : list (string * bool);
  kline_intervals : list string
}.

(** How one pass over the body of the retry loop ends: with a [return],
    or at the bottom of the body, from where the loop goes on. *)
Inductive flow : Type :=
| Returned (b : bool)
| NextAttempt.

(** [range(n)]. *)
Definition range (n : Z) : list Z := seqZ 0 n.

Definition session_get (url : string) : M response :=
  emit (EvGet url);;
  s <- get_state ;;
  match st_net s with
  | [] => raise ConnectionError
  | r :: rest =>
      modify (set_net rest);;
      match r with
      | NetError => raise ConnectionError
      | NetResponse resp => mret resp
      end
  end.

Definition raise_for_status (resp : response) : M unit :=
  if ((400 <=? status_code resp) && (status_code resp <? 600))%Z
  then raise (HTTPError (status_code resp))
  else mret tt.

(** [int(response.headers.get('content-length', 0))]. *)
Definition declared_size (resp : response) : M Z :=
  match content_length resp with
  | Some n => ret n
  | None => raise ValueError
  end.

(** The [with open(zip_path, 'wb')] block: empty chunks are not written;
    the chunks come cut as the connection delivers them. *)
Definition stream_to_file (zip_path : string) (resp : response) : M Z :=
  let written := filter (λ chunk, chunk ≠ "") (body_chunks resp) in
  let data := foldr String.append "" written in
  open_write zip_path data;;
  if body_complete resp then mret (Z.of_nat (String.length data))
  else raise ConnectionError.

Section Downloader.

(** [zipfile]: what [extractall] makes of the bytes of an archive, namely
    the members it writes, in order and under the names it has
    sanitised, and the exception that stops it, if any. *)
Context (unzip : string → list (string * string) * option exn).

Definition write_members (extract_dir : string) (members : list (string * string))
    (files : gmap string file) : gmap string file :=
  foldl (λ fs m, write_bytes (path_join2 extract_dir m.1) m.2 fs) files members.

Definition extractall (zip_path extract_dir : string) : M unit :=
  s <- get_state ;;
  match st_files s !! zip_path with
  | None => raise FileNotFoundError
  | Some f =>
      if negb (f_readable f) then raise PermissionError
      else
        modify (set_files (write_members extract_dir (unzip (f_data f)).1));;
        match (unzip (f_data f)).2 with
        | Some e => raise e
        | None => mret tt
        end
  end.

Definition _extract_zip_file (zip_path extract_dir : string) : M bool :=
  try_except2
    (extractall zip_path extract_dir;; mret true)
    is_BadZipFile
    (λ _, log ERROR (MsgCorruptedZip zip_path);; mret false)
    any_exception
    (λ e, log ERROR (MsgExtractError zip_path e);; mret false).

Context (cfg : config).

(** The [try] block of the retry loop (lines 73 to 112): every path
    through it ends in a [return] or in an exception. *)
Definition attempt_body (url file_dir zip_path zip_filename csv_filename : string)
    (attempt : Z) : M bool :=
  log INFO (MsgDownloading (attempt + 1) (retry_attempts cfg) url);;
  time_sleep Throttle (rate_limit_delay cfg);;
  resp <- session_get url ;;
  if (status_code resp =? 404)%Z then
    log WARNING (MsgNotAvailable url);;
    mret false
  else
    raise_for_status resp;;
    total_size <- declared_size resp ;;
    downloaded_size <- stream_to_file zip_path resp ;;
    log INFO (MsgDownloaded downloaded_size zip_filename);;
    if auto_extract cfg then
      extracted <- _extract_zip_file zip_path file_dir ;;
      if extracted then
        log INFO (MsgExtracted csv_filename);;
        (if delete_zip cfg then
           os_remove zip_path;;
           log DEBUG (MsgDeletedZip zip_filename)
         else ret tt);;
        mret true
      else
        log ERROR (MsgExtractFailed zip_filename);;
        mret false
    else mret true.

Definition attempt_once (url file_dir zip_path zip_filename csv_filename : string)
    (attempt : Z) : M flow :=
  try_except2
    (b <- attempt_body url file_dir zip_path zip_filename csv_filename attempt ;;
     mret (Returned b))
    is_RequestException
    (λ e,
       log WARNING (MsgAttemptFailed (attempt + 1) e);;
       if (attempt <? retry_attempts cfg - 1)%Z then
         log INFO (MsgRetrying (retry_delay cfg));;
         time_sleep Backoff (retry_delay cfg);;
         mret NextAttempt
       else
         log ERROR (MsgAllAttemptsFailed url);;
         mret (Returned false))
    any_exception
    (λ e,
       log ERROR (MsgUnexpected e);;
       mret (Returned false)).

(** [for attempt in range(self.retry_attempts): ...] and the
    [return False] after it. *)
Fixpoint attempt_loop (url file_dir zip_path zip_filename csv_filename : string)
    (attempts : list Z) : M bool :=
  match attempts with
  | [] => mret false
  | attempt :: rest =>
      f <- attempt_once url file_dir zip_path zip_filename csv_filename attempt ;;
      match f with
      | Returned b => mret b
      | NextAttempt =>
          attempt_loop url file_dir zip_path zip_filename csv_filename rest
      end
  end.

Definition download_file (symbol data_type date : string)
    (interval : option string) : M bool :=
  try_except
    (url <- lift (build_download_url (base_url cfg) data_type symbol date interval) ;;
     let file_dir := get_file_directory data_type symbol interval (output_directory cfg) in
     ensure_directory_exists file_dir;;
     let zip_filename := get_output_filename symbol data_type date interval "zip" in
     let csv_filename := get_output_filename symbol data_type date interval "csv" in
     let zip_path := os_path_join file_dir [zip_filename] in
     let csv_path := os_path_join file_dir [csv_filename] in
     needed <- is_download_needed csv_path (overwrite_existing cfg) ;;
     if negb needed then
       log INFO (MsgSkipping (os_path_basename csv_path));;
       mret true
     else
       attempt_loop url file_dir zip_path zip_filename csv_filename
         (range (retry_attempts cfg)))
    any_exception
    (λ e,
       log ERROR (MsgErrorInDownloadFile e);;
       mret false).

End Downloader.

(** [for x in l: ...] with the variables the body updates passed along. *)
Fixpoint for_each {A S : Type} (l : list A) (body : A → S → M S) (acc : S) : M S :=
  match l with
  | [] => ret acc
  | x :: rest => acc' <- body x acc ;; for_each rest body acc'
  end.

Section SymbolData.

(** [self.download_file], as [download_symbol_data] calls it. *)
Context (fetch : string → string → string → option string → M bool).

Definition download_symbol_data_with (symbol date : string)
    (data_types : list (string * bool)) (kline_intervals : list string)
    : M (gmap string bool) :=
  for_each data_types
    (λ '(data_type, enabled) results,
       if negb enabled then ret results
       else if str_in data_type INTERVAL_TYPES then
         match kline_intervals with
         | [] =>
             log WARNING (MsgNoIntervals data_type);;
             ret results
         | _ :: _ =>
             for_each kline_intervals
               (λ interval results,
                  let key := data_type +:+ "_" +:+ interval in
                  ok <- fetch symbol data_type date (Some interval) ;;
                  ret (<[key := ok]> results))
               results
         end
       else
         ok <- fetch symbol data_type date None ;;
         ret (<[data_type := ok]> results))
    ∅.

End SymbolData.

(* ================================================================== *)
(** ** main.py *)

Record task : Type := Task {
  t_symbol : string;
  t_date : string;
  t_data_types : list (string * bool);
  t_kline_intervals : list string
}.

Record task_result : Type := TaskResult {
  r_symbol : string;
  r_date : string;
  success_count : Z;
  total_count : Z;
  success_rate : Q;
  details : option (gmap string bool);
  error : option exn
}.

(** [l[0]] and [l[-1]]. *)
Definition first_item (l : list string) : M string :=
  match l with
  | x :: _ => ret x
  | [] => raise IndexError
  end.

Definition last_item (l : list string) : M string :=
  match last l with
  | Some x => ret x
  | None => raise IndexError
  end.

(** The two nested loops that fill [tasks]. *)
Definition enumerate_tasks (cfg : config) (dates pairs : list string) : list task :=
  foldl
    (λ tasks date,
       foldl
         (λ tasks symbol,
            tasks ++ [Task symbol date (data_types cfg) (kline_intervals cfg)])
         tasks pairs)
    [] dates.

Definition generate_download_tasks (cfg : config) : M (list task) :=
  dates <- generate_date_range (start_date cfg) (end_date cfg) ;;
  first <- first_item dates ;;
  final <- last_item dates ;;
  log INFO (MsgDateRange (Z.of_nat (length dates)) first final);;
  let finish (pairs : list string) : M (list task) :=
    let tasks := enumerate_tasks cfg dates pairs in
    log INFO (MsgGenerated (Z.of_nat (length tasks)));;
    ret tasks in
  match trading_pairs cfg with
  | [] =>
      log INFO MsgFetchingAllPairs;;
      fetched <- try_except
                   (pairs <- get_all_trading_pairs ;;
                    log INFO (MsgFoundPairs (Z.of_nat (length pairs)));;
                    ret (Some pairs))
                   any_exception
                   (λ e, log ERROR (MsgFetchPairsFailed e);; ret None) ;;
      match fetched with
      | Some pairs => finish pairs
      | None => ret []
      end
  | _ :: _ =>
      log INFO (MsgUsingPairs (Z.of_nat (length (trading_pairs cfg))));;
      finish (trading_pairs cfg)
  end.

(** [sum(1 for success in results.values() if success)]. *)
Definition count_successes (results : gmap string bool) : Z :=
  Z.of_nat (length (filter (λ kv, kv.2 = true) (map_to_list results))).

Section Main.

Context (unzip : string → list (string * string) * option exn).
Context (cfg : config).

Definition download_symbol_data :=
  download_symbol_data_with (download_file unzip cfg).

Definition download_task (t : task) : M task_result :=
  let symbol := t_symbol t in
  let date := t_date t in
  try_except
    (log INFO (MsgProcessing symbol date);;
     results <- download_symbol_data symbol date
                  (t_data_types t) (t_kline_intervals t) ;;
     let success_count := count_successes results in
     let total_count := Z.of_nat (size results) in
     let task_result :=
       {| r_symbol := symbol;
          r_date := date;
          success_count := success_count;
          total_count := total_count;
          success_rate :=
            if (total_count >? 0)%Z
            then (inject_Z success_count / inject_Z total_count)%Q
            else 0%Q;
          details := Some results;
          error := None |} in
     (if (success_count =? total_count)%Z
      then log INFO (MsgCompleted symbol date success_count total_count)
      else log WARNING (MsgPartial symbol date success_count total_count));;
     ret task_result)
    any_exception
    (λ e,
       log ERROR (MsgTaskFailed symbol date e);;
       ret {| r_symbol := symbol; r_date := date;
              success_count := 0; total_count := 0; success_rate := 0%Q;
              details := None; error := Some e |}).

(** The counters of [run_downloads]: completed and successful tasks. *)
Record counters : Type := Counters {
  completed_tasks : Z;
  successful_tasks : Z
}.

(** The body of the [for future in as_completed(...)] loop, on the
    result of one task. *)
Definition tally (n_tasks : Z) (result : task_result) (c : counters) : M counters :=
  let completed := (completed_tasks c + 1)%Z in
  let successful :=
    if Qeq_bool (success_rate result) 1
    then (successful_tasks c + 1)%Z
    else successful_tasks c in
  (if (completed mod 10 =? 0)%Z || (completed =? n_tasks)%Z
   then log INFO (MsgProgress completed n_tasks successful)
   else ret tt);;
  ret (Counters completed successful).

(** The pool with one worker: the tasks run one after the other, in the
    order they were submitted, and each result is taken in as soon as
    its task is done. *)
Definition run_pool (tasks : list task) : M counters :=
  for_each tasks
    (λ t c, result <- download_task t ;; tally (Z.of_nat (length tasks)) result c)
    (Counters 0 0).

(** [run_downloads] returns nothing; its value here is the pair of
    counters that its summary reports. *)
Definition run_downloads (tasks : list task) : M counters :=
  ensure_directory_exists (output_directory cfg);;
  ensure_directory_exists (log_directory cfg);;
  log INFO (MsgStarting (max_concurrent_downloads cfg));;
  c <- run_pool tasks ;;
  let n := Z.of_nat (length tasks) in
  let percent :=
    match tasks with
    | [] => 0%Q
    | _ :: _ => (inject_Z (successful_tasks c) / inject_Z n * 100)%Q
    end in
  log INFO (MsgSummary n (successful_tasks c) percent);;
  ret c.

(** [main], after the configuration is loaded; its value is the exit
    code. *)
Definition main : M Z :=
  try_except
    (log INFO MsgStarted;;
     log INFO MsgConfigLoaded;;
     tasks <- generate_download_tasks cfg ;;
     match tasks with
     | [] =>
         log ERROR MsgNoTasks;;
         ret 1%Z
     | _ :: _ =>
         run_downloads tasks;;
         log INFO MsgFinished;;
         ret 0%Z
     end)
    any_exception
    (λ e,
       log ERROR (MsgMainUnexpected e);;
       ret 1%Z).

End Main.

(* ================================================================== *)
(** ** What the statements below speak about *)

(** The URLs requested in a trace, and the lengths of its sleeps at one
    call site. *)
Definition http_requests (t : list event) : list string :=
  omap (λ e, match e with EvGet url => Some url | _ => None end) t.

Definition sleeps_at (site : sleep_site) (t : list event) : list Q :=
  omap (λ e, match e, site with
             | EvSleep Throttle d, Throttle => Some d
             | EvSleep Backoff d, Backoff => Some d
             | _, _ => None
             end) t.

(** The extracted file is there, can be read as text, has at least 100
    bytes and more than one line. *)
Definition complete_csv (files : gmap string file) (csv_path : string) : bool :=
  match files !! csv_path with
  | Some f =>
      f_readable f && Utf8.decodes (f_data f)
      && (100 <=? Z.of_nat (String.length (f_data f)))%Z
      && (1 <? Z.of_nat (length (text_lines (f_data f))))%Z
  | None => false
  end.


(** The paths [download_file] works out for a task. *)
Section Paths.

Context (cfg : config) (symbol data_type date : string) (interval : option string).

Definition file_dir_of : string :=
  get_file_directory data_type symbol interval (output_directory cfg).
Definition zip_filename_of : string :=
  get_output_filename symbol data_type date interval "zip".
Definition csv_filename_of : string :=
  get_output_filename symbol data_type date interval "csv".
Definition zip_path_of : string := os_path_join file_dir_of [zip_filename_of].
Definition csv_path_of : string := os_path_join file_dir_of [csv_filename_of].

End Paths.

Definition result_of {A} (r : outcome A * state * list event) : outcome A := r.1.1.
Definition state_of {A} (r : outcome A * state * list event) : state := r.1.2.
Definition trace_of {A} (r : outcome A * state * list event) : list event := r.2.

(** A trace without its log records: the sleeps and the requests. *)
Definition is_log (e : event) : bool :=
  match e with
  | EvLog _ _ => true
  | _ => false
  end.

Definition timeline (t : list event) : list event :=
  filter (λ e, is_log e = false) t.

(** An attempt that the retry loop takes for a transient failure: no
    connection, a status from 400 to 599 other than 404, or a connection
    that breaks while the body of an otherwise good response streams. *)
Definition transient (r : http_result) : bool :=
  match r with
  | NetError => true
  | NetResponse resp =>
      negb (status_code resp =? 404)%Z
      && ((400 <=? status_code resp)%Z && (status_code resp <? 600)%Z
          || bool_decide (is_Some (content_length resp))
             && negb (body_complete resp))
  end.

(** The next request, if the queue still holds its result, meets a
    transient failure; an empty queue answers with a connection error. *)
Definition head_transient (q : list http_result) : Prop :=
  match q with
  | [] => True
  | r :: _ => transient r = true
  end.

(** Throttle and request, [n] times over, with a pause between one
    attempt and the next. *)
Fixpoint retry_timeline (cfg : config) (url : string) (n : nat) : list event :=
  match n with
  | O => []
  | S m =>
      [EvSleep Throttle (rate_limit_delay cfg); EvGet url]
      ++ match m with
         | O => []
         | S _ => EvSleep Backoff (retry_delay cfg) :: retry_timeline cfg url m
         end
  end.

(** A response that [download_file] takes for a successful one: its
    status is not 404, [raise_for_status] lets it pass and its
    [content-length] reads as a number. *)
Definition accepted (resp : response) : bool :=
  negb (status_code resp =? 404)%Z
  && negb ((400 <=? status_code resp)%Z && (status_code resp <? 600)%Z)
  && bool_decide (is_Some (content_length resp)).

(** The bytes that end up in the archive file. *)
Definition streamed (resp : response) : string :=
  foldr String.append "" (filter (λ chunk, chunk ≠ "") (body_chunks resp)).

(** The state once the body of [resp] is written to [zip_path]. *)
Definition downloaded (zip_path : string) (resp : response)
    (rest : list http_result) (s : state) : state :=
  set_files (write_bytes zip_path (streamed resp)) (set_net rest s).

(** The paths under which [extractall] writes the members. *)
Definition member_paths (extract_dir : string) (members : list (string * string))
    : list string :=
  (λ m, path_join2 extract_dir m.1) <$> members.

(** What a pass over the loop body has logged and done by the time the
    archive is on disk. *)
Definition download_events (cfg : config) (url zip_filename : string)
    (attempt : Z) (resp : response) : list event :=
  [EvLog INFO (MsgDownloading (attempt + 1) (retry_attempts cfg) url);
   EvSleep Throttle (rate_limit_delay cfg);
   EvGet url;
   EvLog INFO (MsgDownloaded (Z.of_nat (String.length (streamed resp))) zip_filename)].

(** The URL as the description of the remote interface writes it:
    [{base_url}{data_type}/{symbol}[/{interval}]/{symbol}-[{interval}-]{data_type}-{date}.zip],
    the bracketed parts being there for the data types that take an
    interval. *)
Definition documented_url (base_url data_type symbol date : string)
    (interval : option string) : string :=
  match (if str_in data_type INTERVAL_TYPES then interval else None) with
  | Some i =>
      base_url +:+ data_type +:+ "/" +:+ symbol +:+ "/" +:+ i +:+ "/"
      +:+ symbol +:+ "-" +:+ i +:+ "-" +:+ data_type +:+ "-" +:+ date +:+ ".zip"
  | None =>
      base_url +:+ data_type +:+ "/" +:+ symbol +:+ "/"
      +:+ symbol +:+ "-" +:+ data_type +:+ "-" +:+ date +:+ ".zip"
  end.

(** A small deployment to run the functions on: one symbol, one day. *)
Module Sample.

Definition cfg : config :=
  {| base_url := "https://data.binance.vision/data/futures/um/daily/";
     output_directory := "./data";
     log_directory := "./logs";
     retry_attempts := 3;
     retry_delay := 5;
     rate_limit_delay := 1 # 10;
     chunk_size := 8192;
     max_concurrent_downloads := 3;
     auto_extract := true;
     delete_zip := true;
     overwrite_existing := false;
     start_date := "2024-08-01";
     end_date := "2024-08-01";
     trading_pairs := ["BTCUSDT"];
     data_types := [("aggTrades", true)];
     kline_intervals := [] |}.

Definition with_extract (extract : bool) (c : config) : config :=
  {| base_url := base_url c; output_directory := output_directory c;
     log_directory := log_directory c; retry_attempts := retry_attempts c;
     retry_delay := retry_delay c; rate_limit_delay := rate_limit_delay c;
     chunk_size := chunk_size c;
     max_concurrent_downloads := max_concurrent_downloads c;
     auto_extract := extract; delete_zip := delete_zip c;
     overwrite_existing := overwrite_existing c;
     start_date := start_date c; end_date := end_date c;
     trading_pairs := trading_pairs c; data_types := data_types c;
     kline_intervals := kline_intervals c |}.

Definition url : string :=
  "https://data.binance.vision/data/futures/um/daily/aggTrades/BTCUSDT/BTCUSDT-aggTrades-2024-08-01.zip".
Definition zip_path : string :=
  "./data/aggTrades/BTCUSDT/BTCUSDT-aggTrades-2024-08-01.zip".
Definition csv_path : string :=
  "./data/aggTrades/BTCUSDT/BTCUSDT-aggTrades-2024-08-01.csv".

(** A header and two rows, 150 bytes. *)
Definition csv_rows : string :=
  "agg_trade_id,price,quantity,first_trade_id,last_trade_id,transact_time,is_buyer_maker"
  +:+ String LF ""
  +:+ "1,64620.1,0.004,1,1,1722470400013,true" +:+ String LF ""
  +:+ "2,64620.0,0.120,2,3,1722470400101,false" +:+ String LF "".

(** Stands for the bytes of an archive that holds the csv of the day. *)
Definition archive : string := "PK:BTCUSDT-aggTrades-2024-08-01".

(** [zipfile] on the two byte strings of the example: the archive
    extracts, anything else is not a zip file. *)
Definition unzip (data : string) : list (string * string) * option exn :=
  if bool_decide (data = archive)
  then ([("BTCUSDT-aggTrades-2024-08-01.csv", csv_rows)], None)
  else ([], Some BadZipFile).

Definition reply (code : Z) (body : string) : response :=
  Response code (Some (Z.of_nat (String.length body))) [body] true.
Definition ok (body : string) : http_result := NetResponse (reply 200 body).
Definition status (code : Z) : http_result := NetResponse (reply code "").

Definition with_range (first final : string) (c : config) : config :=
  {| base_url := base_url c; output_directory := output_directory c;
     log_directory := log_directory c; retry_attempts := retry_attempts c;
     retry_delay := retry_delay c; rate_limit_delay := rate_limit_delay c;
     chunk_size := chunk_size c;
     max_concurrent_downloads := max_concurrent_downloads c;
     auto_extract := auto_extract c; delete_zip := delete_zip c;
     overwrite_existing := overwrite_existing c;
     start_date := first; end_date := final;
     trading_pairs := trading_pairs c; data_types := data_types c;
     kline_intervals := kline_intervals c |}.

Definition with_selection (pairs : list string) (types : list (string * bool))
    (intervals : list string) (c : config) : config :=
  {| base_url := base_url c; output_directory := output_directory c;
     log_directory := log_directory c; retry_attempts := retry_attempts c;
     retry_delay := retry_delay c; rate_limit_delay := rate_limit_delay c;
     chunk_size := chunk_size c;
     max_concurrent_downloads := max_concurrent_downloads c;
     auto_extract := auto_extract c; delete_zip := delete_zip c;
     overwrite_existing := overwrite_existing c;
     start_date := start_date c; end_date := end_date c;
     trading_pairs := pairs; data_types := types;
     kline_intervals := intervals |}.

(** Three days, two symbols, one simple and one interval data type
    enabled, two intervals. *)
Definition cfg_three_days : config :=
  with_range "2024-08-01" "2024-08-03"
    (with_selection ["BTCUSDT"; "ETHUSDT"]
       [("aggTrades", true); ("klines", true); ("trades", false)]
       ["1h"; "1d"] cfg).

(** 2024-08-15. *)
Definition today : Z := 739113.

Definition disk (files : gmap string file) (net : list http_result) : state :=
  State files ∅ net None today.

(** [n] bytes without a line break. *)
Fixpoint padded (n : nat) : string :=
  match n with
  | O => ""
  | S m => String (ascii_of_nat 120) (padded m)
  end.

(** What the resume check answers when [f] is the file at the csv path. *)
Definition needed_for (f : file) : outcome bool :=
  result_of (is_download_needed csv_path false (disk {[csv_path := f]} [])).

End Sample.

(** The end of the date range once ["latest"] is replaced by today. *)
Definition resolved_end_date (end_date : string) (s : state) : string :=
  if bool_decide (Calendar.lower end_date = "latest")
  then Calendar.strftime (st_today s)
  else end_date.

(** The symbols once an empty configured list is replaced by what the
    exchange answers; [None] when that lookup fails. *)
Definition resolved_pairs (cfg : config) (s : state) : option (list string) :=
  match trading_pairs cfg with
  | [] => st_exchange s
  | _ :: _ => Some (trading_pairs cfg)
  end.

(** The [(symbol, date)] pairs whose processing a trace records. *)
Definition task_starts (t : list event) : list (string * string) :=
  omap (λ e, match e with
             | EvLog _ (MsgProcessing symbol date) => Some (symbol, date)
             | _ => None
             end) t.

(** One file to fetch: the arguments of one call of [download_file]. *)
Record file_task : Type := FileTask {
  ft_symbol : string;
  ft_date : string;
  ft_data_type : string;
  ft_interval : option string
}.

(** What [download_symbol_data] does for a symbol and a date, one step
    after the other: fetch a file and store the outcome under a key, or
    warn that a data type has no interval to go with. *)
Inductive step : Type :=
| StepFetch (key : string) (ft : file_task)
| StepWarn (data_type : string).

Definition symbol_data_plan (symbol date : string)
    (data_types : list (string * bool)) (kline_intervals : list string) : list step :=
  flat_map
    (λ '(data_type, enabled),
       if negb enabled then []
       else if str_in data_type INTERVAL_TYPES then
         match kline_intervals with
         | [] => [StepWarn data_type]
         | _ :: _ =>
             (λ interval,
                StepFetch (data_type +:+ "_" +:+ interval)
                  (FileTask symbol date data_type (Some interval)))
             <$> kline_intervals
         end
       else [StepFetch data_type (FileTask symbol date data_type None)])
    data_types.

Definition run_step (fetch : string → string → string → option string → M bool)
    (st : step) (results : gmap string bool) : M (gmap string bool) :=
  match st with
  | StepFetch key ft =>
      ok <- fetch (ft_symbol ft) (ft_data_type ft) (ft_date ft) (ft_interval ft) ;;
      ret (<[key := ok]> results)
  | StepWarn data_type =>
      bind (log WARNING (MsgNoIntervals data_type)) (λ _, ret results)
  end.

Definition plan_fetches (p : list step) : list file_task :=
  omap (λ st, match st with
              | StepFetch _ ft => Some ft
              | StepWarn _ => None
              end) p.

Definition task_plan (t : task) : list step :=
  symbol_data_plan (t_symbol t) (t_date t) (t_data_types t) (t_kline_intervals t).

(** The task list as the Generator is described: one task per date, per
    symbol, per enabled data type and, where the data type takes one, per
    interval, dates outermost. *)
Definition documented_tasks (dates symbols : list string)
    (data_types : list (string * bool)) (intervals : list string) : list file_task :=
  flat_map
    (λ date,
       flat_map
         (λ symbol,
            flat_map
              (λ '((data_type, enabled) : string * bool),
                 if enabled then
                   if str_in data_type INTERVAL_TYPES
                   then (λ interval, FileTask symbol date data_type (Some interval))
                        <$> intervals
                   else [FileTask symbol date data_type None]
                 else [])
              data_types)
         symbols)
    dates.

(** The enabled data types that take no interval, and those that do. *)
Definition enabled_simple_types (data_types : list (string * bool)) : nat :=
  length (filter (λ e, e.2 = true ∧ str_in e.1 INTERVAL_TYPES = false) data_types).

Definition enabled_interval_types (data_types : list (string * bool)) : nat :=
  length (filter (λ e, e.2 = true ∧ str_in e.1 INTERVAL_TYPES = true) data_types).

(* ================================================================== *)
(** ** What one task may touch *)

(** [s'] is [s] up to the files of one task: the pinned paths, the
    network queue, the exchange and the date are the same; a path other
    than the archive that no extraction into [file_dir] can write to holds
    what it held; and no file other than the archive has gone. *)
Definition keeps (unzip : string → list (string * string) * option exn)
    (file_dir zip_path : string) (s s' : state) : Prop :=
  st_pinned s' = st_pinned s
  ∧ st_net s' = st_net s
  ∧ st_exchange s' = st_exchange s
  ∧ st_today s' = st_today s
  ∧ (∀ p, p ≠ zip_path →
          (∀ data, p ∉ member_paths file_dir (unzip data).1) →
          st_files s' !! p = st_files s !! p)
  ∧ (∀ p, p ≠ zip_path → is_Some (st_files s !! p) → is_Some (st_files s' !! p)).

(** The archive at [zip_path] is there, can be read, and [zipfile]
    extracts all of it. *)
Definition extractable (unzip : string → list (string * string) * option exn)
    (files : gmap string file) (zip_path : string) : bool :=
  match files !! zip_path with
  | Some f =>
      f_readable f
      && match (unzip (f_data f)).2 with
         | None => true
         | Some _ => false
         end
  | None => false
  end.

(* ================================================================== *)
(** ** What a run may spend *)

(** The keys under which the steps of a plan store an outcome. *)
Definition plan_keys (p : list step) : list string :=
  omap (λ st, match st with
              | StepFetch key _ => Some key
              | StepWarn _ => None
              end) p.

(** The files a task asks for. *)
Definition task_files (t : task) : nat := length (plan_fetches (task_plan t)).

(** A run from [s] to [s'] with trace [t] sends at most [n] requests,
    takes one result off the network queue for each request it sends, and
    leaves the pinned paths, the exchange and the date alone. *)
Definition quota (n : nat) (s s' : state) (t : list event) : Prop :=
  length (http_requests t) ≤ n
  ∧ st_net s' = drop (length (http_requests t)) (st_net s)
  ∧ st_pinned s' = st_pinned s
  ∧ st_exchange s' = st_exchange s
  ∧ st_today s' = st_today s.

(** [m] raises nothing: from any state it returns a value that meets
    [Q], within the quota [n]. *)
Definition returns {A} (m : M A) (n : nat) (Q : A → Prop) : Prop :=
  ∀ s, ∃ a s' t, m s = (Return a, s', t) ∧ Q a ∧ quota n s s' t.

(** What [download_task] reports on a task, as far as the task alone
    tells. *)
Definition reports (t : task) (r : task_result) : Prop :=
  r_symbol r = t_symbol t
  ∧ r_date r = t_date t
  ∧ error r = None
  ∧ (∃ results,
       details r = Some results
       ∧ dom results = list_to_set (plan_keys (task_plan t))
       ∧ total_count r = Z.of_nat (size results)
       ∧ success_count r = count_successes results)
  ∧ (0 ≤ success_count r ≤ total_count r)%Z
  ∧ (total_count r ≤ Z.of_nat (task_files t))%Z
  ∧ (Qeq_bool (success_rate r) 1 = true
     ↔ (0 < total_count r)%Z ∧ success_count r = total_count r).

(* ================================================================== *)
(** ** utils.py: the two checks that have no caller yet *)

Definition is_ValueError (e : exn) : bool :=
  match e with
  | ValueError => true
  | _ => false
  end.

Definition validate_date_format (date_str : string) : M bool :=
  try_except
    (datetime_strptime date_str;; mret true)
    is_ValueError
    (λ _, mret false).

(** [os.path.exists(file_path) and os.path.getsize(file_path) > 0]. *)
Definition is_file_exists (file_path : string) : M bool :=
  present <- os_path_exists file_path ;;
  if present then
    size <- os_path_getsize file_path ;;
    ret (size >? 0)%Z
  else ret false.

(* ================================================================== *)
(** ** The calendar, read backwards *)

(** The month and the day of day [n], counted from 0, of a year, as
    [_ord2ymd] finds them from its estimate of the month. *)
Definition month_and_day (leapyear : bool) (n : Z) : Z * Z :=
  let month := Z.shiftr (n + 50) 5 in
  let preceding :=
    (Calendar.table Calendar.DAYS_BEFORE_MONTH month
     + (if (month >? 2) && leapyear then 1 else 0))%Z in
  if (preceding >? n)%Z then
    let month := (month - 1)%Z in
    let preceding :=
      (preceding
       - (Calendar.table Calendar.DAYS_IN_MONTH month
          + (if (month =? 2) && leapyear then 1 else 0)))%Z in
    (month, (n - preceding + 1)%Z)
  else (month, (n - preceding + 1)%Z).

(** [month_and_day] lands on a day of the calendar, the one that
    [_days_before_month] counts back to [n]. *)
Definition lands (leapyear : bool) (n : Z) : bool :=
  let '(m, d) := month_and_day leapyear n in
  ((1 <=? m) && (m <=? 12) && (1 <=? d)
   && (d <=? Calendar.table Calendar.DAYS_IN_MONTH m
             + (if (m =? 2) && leapyear then 1 else 0))
   && (Calendar.table Calendar.DAYS_BEFORE_MONTH m
       + (if (m >? 2) && leapyear then 1 else 0) + d =? n + 1))%Z.

(* ================================================================== *)
(** ** More of the example deployment *)

Module Deployment.

Definition with_attempts (n : Z) (c : config) : config :=
  {| base_url := base_url c; output_directory := output_directory c;
     log_directory := log_directory c; retry_attempts := n;
     retry_delay := retry_delay c; rate_limit_delay := rate_limit_delay c;
     chunk_size := chunk_size c;
     max_concurrent_downloads := max_concurrent_downloads c;
     auto_extract := auto_extract c; delete_zip := delete_zip c;
     overwrite_existing := overwrite_existing c;
     start_date := start_date c; end_date := end_date c;
     trading_pairs := trading_pairs c; data_types := data_types c;
     kline_intervals := kline_intervals c |}.

Definition with_overwrite (overwrite : bool) (c : config) : config :=
  {| base_url := base_url c; output_directory := output_directory c;
     log_directory := log_directory c; retry_attempts := retry_attempts c;
     retry_delay := retry_delay c; rate_limit_delay := rate_limit_delay c;
     chunk_size := chunk_size c;
     max_concurrent_downloads := max_concurrent_downloads c;
     auto_extract := auto_extract c; delete_zip := delete_zip c;
     overwrite_existing := overwrite;
     start_date := start_date c; end_date := end_date c;
     trading_pairs := trading_pairs c; data_types := data_types c;
     kline_intervals := kline_intervals c |}.

(** A response whose [content-length] header is not a number. *)
Definition garbled_length (body : string) : response :=
  Response 200%Z None [body] true.

(** A response whose body breaks off after its first chunk. *)
Definition broken_off (chunk : string) : response :=
  Response 200%Z (Some 4096%Z) [chunk] false.

End Deployment.

(* ================================================================== *)
(** ** Running a computation *)

Lemma after_nil {A} (r : outcome A * state * list event) : after [] r = r.
Proof. by destruct r as [[??]?]. Qed.

Lemma after_after {A} t1 t2 (r : outcome A * state * list event) :
  after t1 (after t2 r) = after (t1 ++ t2) r.
Proof. unfold after; simpl. by rewrite app_assoc. Qed.

Lemma after_triple {A} t1 (o : outcome A) (s : state) t2 :
  after t1 (o, s, t2) = (o, s, t1 ++ t2).
Proof. done. Qed.

Section MonadFacts.

Context {A B : Type}.
Implicit Types (s : state) (t : list event).

Lemma mbind_bind (m : M A) (k : A → M B) : (m ≫= k) = bind m k.
Proof. done. Qed.

Lemma mret_ret (a : A) : mret a = ret a.
Proof. done. Qed.

Lemma bind_ret (a : A) (k : A → M B) s : bind (ret a) k s = k a s.
Proof. unfold bind, ret. apply after_nil. Qed.

Lemma bind_raise e (k : A → M B) s : bind (raise e) k s = (Raise e, s, []).
Proof. done. Qed.

Lemma bind_lift_Return (a : A) (k : A → M B) s : bind (lift (Return a)) k s = k a s.
Proof. apply bind_ret. Qed.

Lemma bind_lift_Raise e (k : A → M B) s :
  bind (lift (Raise e)) k s = (Raise e, s, []).
Proof. done. Qed.

Lemma bind_Return (m : M A) (k : A → M B) s a s1 t1 :
  m s = (Return a, s1, t1) → bind m k s = after t1 (k a s1).
Proof. unfold bind. by intros ->. Qed.

Lemma bind_Raise (m : M A) (k : A → M B) s e s1 t1 :
  m s = (Raise e, s1, t1) → bind m k s = (Raise e, s1, t1).
Proof. unfold bind. by intros ->. Qed.

Lemma try_except_Return (m : M A) cls h s a s1 t1 :
  m s = (Return a, s1, t1) → try_except m cls h s = (Return a, s1, t1).
Proof. unfold try_except. by intros ->. Qed.

Lemma try_except_Raise (m : M A) cls h s e s1 t1 :
  m s = (Raise e, s1, t1) → cls e = true →
  try_except m cls h s = after t1 (h e s1).
Proof. unfold try_except. by intros -> ->. Qed.

End MonadFacts.

Lemma bind_bind {A B C} (m : M A) (k1 : A → M B) (k2 : B → M C) s :
  bind (bind m k1) k2 s = bind m (λ a, bind (k1 a) k2) s.
Proof.
  unfold bind. destruct (m s) as [[[a|e] s1] t1]; [|done].
  destruct (k1 a s1) as [[[b|e] s2] t2]; simpl; [|done].
  by rewrite after_after.
Qed.

Lemma bind_emit {B} e (k : unit → M B) s : bind (emit e) k s = after [e] (k tt s).
Proof. done. Qed.

Lemma bind_log {B} lvl msg (k : unit → M B) s :
  bind (log lvl msg) k s = after [EvLog lvl msg] (k tt s).
Proof. done. Qed.

Lemma bind_time_sleep {B} site d (k : unit → M B) s :
  bind (time_sleep site d) k s = after [EvSleep site d] (k tt s).
Proof. done. Qed.

Lemma bind_get_state {B} (k : state → M B) s : bind get_state k s = k s s.
Proof. unfold bind, get_state. apply after_nil. Qed.

Lemma bind_modify {B} f (k : unit → M B) s : bind (modify f) k s = k tt (f s).
Proof. unfold bind, modify. apply after_nil. Qed.

Lemma http_requests_app t1 t2 :
  http_requests (t1 ++ t2) = http_requests t1 ++ http_requests t2.
Proof. apply omap_app. Qed.

Lemma sleeps_at_app site t1 t2 :
  sleeps_at site (t1 ++ t2) = sleeps_at site t1 ++ sleeps_at site t2.
Proof. apply omap_app. Qed.

Ltac mstep :=
  repeat first
    [ rewrite mbind_bind | rewrite mret_ret | rewrite bind_bind
    | rewrite bind_ret | rewrite bind_raise
    | rewrite bind_lift_Return | rewrite bind_lift_Raise
    | rewrite bind_log | rewrite bind_time_sleep | rewrite bind_emit
    | rewrite bind_get_state | rewrite bind_modify
    | rewrite after_after | rewrite after_triple | rewrite after_nil
    | progress cbv beta ].

(* ================================================================== *)
(** ** The resume check *)

Lemma is_download_needed_spec csv_path overwrite s :
  is_download_needed csv_path overwrite s
  = (Return (overwrite || negb (complete_csv (st_files s) csv_path)), s, []).
Proof.
  unfold is_download_needed, complete_csv.
  destruct overwrite; [done|].
  unfold os_path_exists. mstep.
  destruct (st_files s !! csv_path) as [f|] eqn:Hf; simpl.
  2:{ done. }
  unfold try_except, os_path_getsize, open_readlines. mstep. rewrite Hf. mstep.
  destruct (Z.ltb_spec (Z.of_nat (String.length (f_data f))) 100) as [Hlt|Hge].
  { mstep. simpl. replace (100 <=? _)%Z with false by (symmetry; apply Z.leb_gt; lia).
    by rewrite andb_false_r. }
  replace (100 <=? _)%Z with true by (symmetry; apply Z.leb_le; lia).
  mstep. rewrite Hf.
  destruct (f_readable f); simpl; [|done].
  destruct (Utf8.decodes (f_data f)); simpl; [|done].
  mstep. simpl. do 3 f_equal.
  destruct (Z.leb_spec (Z.of_nat (length (text_lines (f_data f)))) 1);
    destruct (Z.ltb_spec 1 (Z.of_nat (length (text_lines (f_data f))))); simpl; try done; lia.
Qed.

(* ================================================================== *)
(** ** The retry loop never lets an exception out *)

Section DownloaderFacts.

Context (unzip : string → list (string * string) * option exn).
Context (cfg : config).
Context (url file_dir zip_path zip_filename csv_filename : string).

Lemma attempt_once_total attempt s :
  ∃ f s' t,
    attempt_once unzip cfg url file_dir zip_path zip_filename csv_filename attempt s
    = (Return f, s', t).
Proof.
  unfold attempt_once, try_except2, try_except.
  destruct (bind _ _ s) as [[[b|e] s1] t1]; [eauto|].
  unfold any_exception. rewrite orb_true_r.
  destruct (is_RequestException e); mstep.
  - destruct (_ <? _)%Z; mstep; unfold ret; eauto.
  - unfold ret; eauto.
Qed.

Lemma attempt_loop_total attempts s :
  ∃ b s' t,
    attempt_loop unzip cfg url file_dir zip_path zip_filename csv_filename attempts s
    = (Return b, s', t).
Proof.
  revert s. induction attempts as [|a rest IH]; intros s; simpl.
  - unfold mret, M_ret, ret. eauto.
  - destruct (attempt_once_total a s) as (f & s1 & t1 & H1).
    rewrite (bind_Return _ _ _ _ _ _ H1).
    destruct f as [b|].
    + mstep. unfold ret; simpl. eauto.
    + destruct (IH s1) as (b & s2 & t2 & H2). rewrite H2. mstep. eauto.
Qed.

(** Every pass over the loop body throttles, then sends its request. *)
Lemma attempt_once_starts attempt s :
  ∃ r,
    attempt_once unzip cfg url file_dir zip_path zip_filename csv_filename attempt s
    = after [EvLog INFO (MsgDownloading (attempt + 1) (retry_attempts cfg) url);
             EvSleep Throttle (rate_limit_delay cfg); EvGet url] r.
Proof.
  unfold attempt_once, try_except2, try_except, attempt_body, session_get.
  mstep.
  match goal with |- context [bind ?m ?k s] => destruct (bind m k s) as [[[b|e] s1] t1] end.
  - mstep. by eexists (_, _, _).
  - mstep. destruct (_ || _); mstep; [|by eexists (_, _, _)].
    match goal with |- context [after _ ?x] => destruct x as [[??]?] end.
    mstep. by eexists (_, _, _).
Qed.

Lemma attempt_loop_requests attempts s :
  attempts ≠ [] →
  http_requests (trace_of (attempt_loop unzip cfg url file_dir zip_path zip_filename
                             csv_filename attempts s)) ≠ [].
Proof.
  destruct attempts as [|a rest]; [done|]. intros _. simpl.
  destruct (attempt_once_starts a s) as [[[o s1] t1] H1].
  unfold bind. rewrite H1. unfold after at 1; simpl.
  destruct o as [f|e]; simpl.
  - unfold trace_of, after; simpl. done.
  - done.
Qed.

End DownloaderFacts.

(* ================================================================== *)
(** ** [download_file], once the task is resolved *)

Section FetcherFacts.

Context (unzip : string → list (string * string) * option exn).
Context (cfg : config) (symbol data_type date : string) (interval : option string).

Local Abbreviation file_dir := (file_dir_of cfg symbol data_type interval).
Local Abbreviation zip_path := (zip_path_of cfg symbol data_type date interval).
Local Abbreviation csv_path := (csv_path_of cfg symbol data_type date interval).
Local Abbreviation zip_filename := (zip_filename_of symbol data_type date interval).
Local Abbreviation csv_filename := (csv_filename_of symbol data_type date interval).
Local Abbreviation fetch := (download_file unzip cfg symbol data_type date interval).
Local Abbreviation attempts_from url :=
  (attempt_loop unzip cfg url file_dir zip_path zip_filename csv_filename).

Lemma range_nonempty n : (1 ≤ n)%Z → range n ≠ [].
Proof.
  intros Hn Hnil. apply (f_equal length) in Hnil.
  unfold range in Hnil. rewrite length_seqZ in Hnil. simpl in Hnil. lia.
Qed.

Lemma download_file_resolved url s :
  build_download_url (base_url cfg) data_type symbol date interval = Return url →
  fetch s =
    if overwrite_existing cfg || negb (complete_csv (st_files s) csv_path)
    then attempts_from url (range (retry_attempts cfg)) s
    else (Return true, s, [EvLog INFO (MsgSkipping (os_path_basename csv_path))]).
Proof.
  intros Hurl. unfold download_file. rewrite Hurl.
  fold file_dir. fold zip_filename. fold csv_filename. fold zip_path. fold csv_path.
  destruct (overwrite_existing cfg || negb (complete_csv (st_files s) csv_path)) eqn:Hneed.
  - destruct (attempt_loop_total unzip cfg url file_dir zip_path zip_filename
                csv_filename (range (retry_attempts cfg)) s) as (b & s1 & t1 & Hloop).
    rewrite Hloop. apply try_except_Return.
    unfold ensure_directory_exists. mstep.
    rewrite (bind_Return _ _ _ _ _ _ (is_download_needed_spec _ _ _)).
    rewrite Hneed. simpl. by mstep.
  - apply try_except_Return.
    unfold ensure_directory_exists. mstep.
    rewrite (bind_Return _ _ _ _ _ _ (is_download_needed_spec _ _ _)).
    rewrite Hneed. simpl. by mstep.
Qed.


End FetcherFacts.

(* ================================================================== *)
(** ** The retry loop *)

Lemma session_get_run url s :
  session_get url s =
    match st_net s with
    | [] => (Raise ConnectionError, s, [EvGet url])
    | NetError :: rest => (Raise ConnectionError, set_net rest s, [EvGet url])
    | NetResponse resp :: rest => (Return resp, set_net rest s, [EvGet url])
    end.
Proof.
  unfold session_get. mstep.
  destruct (st_net s) as [|[|resp] rest]; by mstep.
Qed.

Lemma timeline_app t1 t2 : timeline (t1 ++ t2) = timeline t1 ++ timeline t2.
Proof. apply filter_app. Qed.

Lemma retry_timeline_requests cfg url n :
  http_requests (retry_timeline cfg url n) = replicate n url.
Proof.
  induction n as [|m IH]; [done|].
  destruct m; [done|]. simpl in *. by rewrite IH.
Qed.

Lemma retry_timeline_throttles cfg url n :
  sleeps_at Throttle (retry_timeline cfg url n) = replicate n (rate_limit_delay cfg).
Proof.
  induction n as [|m IH]; [done|].
  destruct m; [done|]. simpl in *. by rewrite IH.
Qed.

Lemma retry_timeline_pauses cfg url n :
  sleeps_at Backoff (retry_timeline cfg url n) = replicate (n - 1) (retry_delay cfg).
Proof.
  induction n as [|m IH]; [done|].
  destruct m; [done|]. simpl in *. rewrite IH. by rewrite Nat.sub_0_r.
Qed.

Lemma http_requests_timeline t : http_requests (timeline t) = http_requests t.
Proof.
  induction t as [|[] t IH]; simpl; try done.
  fold (timeline t). by rewrite IH.
Qed.

Lemma sleeps_at_timeline site t : sleeps_at site (timeline t) = sleeps_at site t.
Proof.
  induction t as [|[] t IH]; simpl; try done.
  fold (timeline t). by rewrite IH.
Qed.

Section RetryFacts.

Context (unzip : string → list (string * string) * option exn).
Context (cfg : config).
Context (url file_dir zip_path zip_filename csv_filename : string).

Local Abbreviation once :=
  (attempt_once unzip cfg url file_dir zip_path zip_filename csv_filename).
Local Abbreviation loop :=
  (attempt_loop unzip cfg url file_dir zip_path zip_filename csv_filename).

Lemma attempt_once_transient attempt s :
  head_transient (st_net s) →
  ∃ s1 t,
    once attempt s
    = (Return (if (attempt <? retry_attempts cfg - 1)%Z
               then NextAttempt else Returned false), s1, t)
    ∧ st_net s1 = tail (st_net s)
    ∧ timeline t
      = [EvSleep Throttle (rate_limit_delay cfg); EvGet url]
        ++ (if (attempt <? retry_attempts cfg - 1)%Z
            then [EvSleep Backoff (retry_delay cfg)] else []).
Proof.
  intros Hq.
  unfold attempt_once, try_except2, try_except, attempt_body. mstep.
  unfold bind at 1. rewrite session_get_run.
  destruct (st_net s) as [|[|resp] rest] eqn:Hnet; simpl in Hq.
  - simpl. mstep. destruct (attempt <? retry_attempts cfg - 1)%Z; mstep; unfold ret; simpl;
      eexists _, _; (split; [reflexivity|split; [by rewrite ?Hnet|done]]).
  - simpl. mstep. destruct (attempt <? retry_attempts cfg - 1)%Z; mstep; unfold ret; simpl;
      eexists _, _; (split; [reflexivity|split; [done|done]]).
  - apply andb_prop in Hq as [H404 Hfail]. apply negb_true_iff in H404.
    rewrite H404. unfold raise_for_status. mstep.
    destruct ((400 <=? status_code resp)%Z && (status_code resp <? 600)%Z) eqn:Hst.
    + mstep. simpl. mstep.
      destruct (attempt <? retry_attempts cfg - 1)%Z; mstep; unfold ret; simpl;
        eexists _, _; (split; [reflexivity|split; [done|done]]).
    + simpl in Hfail. apply andb_prop in Hfail as [Hlen Hfail].
      apply bool_decide_eq_true in Hlen as [n Hlen]. apply negb_true_iff in Hfail.
      unfold declared_size. rewrite Hlen. mstep.
      unfold stream_to_file, open_write. mstep. rewrite Hfail. mstep. simpl. mstep.
      destruct (attempt <? retry_attempts cfg - 1)%Z; mstep; unfold ret; simpl;
        eexists _, _; (split; [reflexivity|split; [done|done]]).
Qed.

Lemma attempt_once_not_found attempt s resp rest :
  st_net s = NetResponse resp :: rest →
  status_code resp = 404%Z →
  once attempt s
  = (Return (Returned false), set_net rest s,
     [EvLog INFO (MsgDownloading (attempt + 1) (retry_attempts cfg) url);
      EvSleep Throttle (rate_limit_delay cfg);
      EvGet url;
      EvLog WARNING (MsgNotAvailable url)]).
Proof.
  intros Hnet H404.
  unfold attempt_once, try_except2, try_except, attempt_body. mstep.
  unfold bind at 1. rewrite session_get_run, Hnet. cbv beta iota.
  rewrite H404. simpl. by mstep.
Qed.

Lemma attempt_loop_exhausted (len : nat) i s :
  (i + Z.of_nat len = retry_attempts cfg)%Z →
  Forall (λ r, transient r = true) (take len (st_net s)) →
  ∃ s' t,
    loop (seqZ i (Z.of_nat len)) s = (Return false, s', t)
    ∧ timeline t = retry_timeline cfg url len.
Proof.
  revert i s. induction len as [|len IH]; intros i s Hi Hq.
  - simpl. by eexists _, _.
  - rewrite Nat2Z.inj_succ, seqZ_cons by lia.
    replace (Z.pred (Z.succ (Z.of_nat len))) with (Z.of_nat len) by lia.
    cbn [attempt_loop].
    destruct (attempt_once_transient i s) as (s1 & t1 & Hrun & Hnet & Htl).
    { destruct (st_net s) as [|r rest]; simpl in *; [done|].
      by apply Forall_cons in Hq as [? _]. }
    rewrite (bind_Return _ _ _ _ _ _ Hrun).
    destruct (Z.ltb_spec i (retry_attempts cfg - 1)) as [Hlt|Hge].
    + destruct len as [|len']; [lia|].
      destruct (IH (Z.succ i) s1) as (s2 & t2 & Hrest & Htl2); [lia| |].
      { rewrite Hnet. destruct (st_net s) as [|r rest]; simpl in *; [done|].
        by apply Forall_cons in Hq as [_ ?]. }
      rewrite Hrest. mstep. eexists _, _. split; [done|].
      rewrite timeline_app, Htl, Htl2. done.
    + assert (len = 0)%nat as -> by lia.
      mstep. eexists _, _. split; [done|]. by rewrite app_nil_r, Htl.
Qed.

End RetryFacts.

Section RetryTheorems.

Context (unzip : string → list (string * string) * option exn).
Context (cfg : config) (symbol data_type date : string) (interval : option string).

Local Abbreviation zip_path := (zip_path_of cfg symbol data_type date interval).
Local Abbreviation csv_path := (csv_path_of cfg symbol data_type date interval).
Local Abbreviation fetch := (download_file unzip cfg symbol data_type date interval).

Lemma download_file_needed url s :
  build_download_url (base_url cfg) data_type symbol date interval = Return url →
  result_of (is_download_needed csv_path (overwrite_existing cfg) s) = Return true →
  fetch s =
    attempt_loop unzip cfg url (file_dir_of cfg symbol data_type interval) zip_path
      (zip_filename_of symbol data_type date interval)
      (csv_filename_of symbol data_type date interval)
      (range (retry_attempts cfg)) s.
Proof.
  intros Hurl Hneed. rewrite is_download_needed_spec in Hneed.
  injection Hneed as Hneed.
  by rewrite (download_file_resolved _ _ _ _ _ _ url s Hurl), Hneed.
Qed.



End RetryTheorems.

(* ================================================================== *)
(** ** After the body has arrived: extraction and clean-up *)

Lemma write_bytes_lookup p data files :
  is_Some (write_bytes p data files !! p).
Proof.
  unfold write_bytes. destruct (files !! p); rewrite lookup_insert_eq; eauto.
Qed.

Lemma write_bytes_lookup_ne p q data files :
  p ≠ q → write_bytes p data files !! q = files !! q.
Proof.
  intros Hne. unfold write_bytes. destruct (files !! p); by rewrite lookup_insert_ne.
Qed.

Lemma write_bytes_keeps p q data files :
  is_Some (files !! q) → is_Some (write_bytes p data files !! q).
Proof.
  intros Hq. destruct (decide (p = q)) as [->|Hne].
  - apply write_bytes_lookup.
  - by rewrite write_bytes_lookup_ne.
Qed.

Lemma write_members_keeps dir members files q :
  is_Some (files !! q) → is_Some (write_members dir members files !! q).
Proof.
  revert files. induction members as [|m ms IH]; intros files Hq; [done|].
  simpl. apply IH. by apply write_bytes_keeps.
Qed.

Lemma write_members_lookup_other dir members files q :
  q ∉ member_paths dir members →
  write_members dir members files !! q = files !! q.
Proof.
  revert files. induction members as [|m ms IH]; intros files Hq; [done|].
  simpl in *. apply not_elem_of_cons in Hq as [Hne Hq].
  rewrite IH by done. by apply write_bytes_lookup_ne.
Qed.

Section ExtractFacts.

Context (unzip : string → list (string * string) * option exn).

Lemma extract_zip_file_total zip_path dir s :
  ∃ ok s' t, _extract_zip_file unzip zip_path dir s = (Return ok, s', t).
Proof.
  unfold _extract_zip_file, try_except2, try_except.
  rewrite mbind_bind. destruct (bind _ _ s) as [[[b|e] s1] t1]; [eauto|].
  unfold any_exception. rewrite orb_true_r.
  destruct (is_BadZipFile e); mstep; unfold ret; eauto.
Qed.

(** [_extract_zip_file] only ever adds files. *)
Lemma extract_zip_file_files zip_path dir s :
  let s' := state_of (_extract_zip_file unzip zip_path dir s) in
  st_pinned s' = st_pinned s
  ∧ st_net s' = st_net s
  ∧ (st_files s' = st_files s
     ∨ ∃ f, st_files s !! zip_path = Some f
            ∧ st_files s' = write_members dir (unzip (f_data f)).1 (st_files s)).
Proof.
  unfold _extract_zip_file, try_except2, try_except, extractall. mstep.
  destruct (st_files s !! zip_path) as [f|] eqn:Hf.
  - destruct (f_readable f); simpl.
    + mstep. destruct ((unzip (f_data f)).2) as [e|]; mstep.
      * unfold any_exception. rewrite orb_true_r.
        destruct (is_BadZipFile e); mstep; simpl; eauto 10.
      * simpl. eauto 10.
    + mstep. simpl. eauto.
  - mstep. simpl. eauto.
Qed.

End ExtractFacts.

Lemma os_remove_run p s :
  os_remove p s =
    if bool_decide (p ∈ st_pinned s) then (Raise PermissionError, s, [])
    else match st_files s !! p with
         | None => (Raise FileNotFoundError, s, [])
         | Some _ => (Return tt, set_files (delete p) s, [])
         end.
Proof.
  unfold os_remove. mstep.
  destruct (bool_decide _); [done|]. by destruct (st_files s !! p).
Qed.

Section DownloadedFacts.

Context (unzip : string → list (string * string) * option exn).
Context (cfg : config).
Context (url file_dir zip_path zip_filename csv_filename : string).

Local Abbreviation once :=
  (attempt_once unzip cfg url file_dir zip_path zip_filename csv_filename).

Local Abbreviation download_events := (download_events cfg url zip_filename).

Ltac to_download resp Hnet Hacc Hbody :=
  let H404 := fresh "H404" in
  let Hst := fresh "Hst" in
  let Hlen := fresh "Hlen" in
  let n := fresh "n" in
  apply andb_prop in Hacc as [Hacc Hlen];
  apply andb_prop in Hacc as [H404 Hst];
  apply negb_true_iff in H404; apply negb_true_iff in Hst;
  apply bool_decide_eq_true in Hlen as [n Hlen];
  unfold attempt_once, try_except2, try_except, attempt_body; mstep;
  unfold bind at 1; rewrite session_get_run, Hnet; cbv beta iota;
  rewrite H404; unfold raise_for_status; rewrite Hst; mstep;
  unfold declared_size; rewrite Hlen; mstep;
  unfold stream_to_file, open_write; mstep; rewrite Hbody; mstep;
  fold (streamed resp).

Lemma attempt_once_without_extract attempt s resp rest :
  st_net s = NetResponse resp :: rest →
  accepted resp = true → body_complete resp = true →
  auto_extract cfg = false →
  once attempt s
  = (Return (Returned true), downloaded zip_path resp rest s,
     download_events attempt resp).
Proof.
  intros Hnet Hacc Hbody Hauto. to_download resp Hnet Hacc Hbody.
  rewrite Hauto. by mstep.
Qed.

Lemma attempt_once_extract_failed attempt s resp rest s2 t2 :
  st_net s = NetResponse resp :: rest →
  accepted resp = true → body_complete resp = true →
  auto_extract cfg = true →
  _extract_zip_file unzip zip_path file_dir (downloaded zip_path resp rest s)
  = (Return false, s2, t2) →
  once attempt s
  = (Return (Returned false), s2,
     download_events attempt resp ++ t2
     ++ [EvLog ERROR (MsgExtractFailed zip_filename)]).
Proof.
  intros Hnet Hacc Hbody Hauto Hex. to_download resp Hnet Hacc Hbody.
  rewrite Hauto. mstep. unfold downloaded in Hex.
  rewrite (bind_Return _ _ _ _ _ _ Hex). mstep. simpl.
  unfold download_events. by rewrite <- !app_assoc.
Qed.

Lemma attempt_once_delete_failed attempt s resp rest s2 t2 e s3 t3 :
  st_net s = NetResponse resp :: rest →
  accepted resp = true → body_complete resp = true →
  auto_extract cfg = true → delete_zip cfg = true →
  _extract_zip_file unzip zip_path file_dir (downloaded zip_path resp rest s)
  = (Return true, s2, t2) →
  os_remove zip_path s2 = (Raise e, s3, t3) →
  once attempt s
  = (Return (Returned false), s2,
     download_events attempt resp ++ t2
     ++ [EvLog INFO (MsgExtracted csv_filename); EvLog ERROR (MsgUnexpected e)]).
Proof.
  intros Hnet Hacc Hbody Hauto Hdel Hex Hrm.
  assert (is_RequestException e = false ∧ s3 = s2 ∧ t3 = []) as (He & -> & ->).
  { rewrite os_remove_run in Hrm. destruct (bool_decide _).
    - by inversion Hrm.
    - destruct (st_files s2 !! zip_path); by inversion Hrm. }
  to_download resp Hnet Hacc Hbody.
  rewrite Hauto. mstep. unfold downloaded in Hex.
  rewrite (bind_Return _ _ _ _ _ _ Hex). mstep. rewrite Hdel. mstep.
  rewrite (bind_Raise _ _ _ _ _ _ Hrm). mstep. rewrite He. simpl. mstep.
  unfold ret, after, download_events. simpl.
  by rewrite app_nil_r, <- !app_assoc.
Qed.

End DownloadedFacts.

Lemma write_bytes_data p data files :
  ∃ r, write_bytes p data files !! p = Some (File data r).
Proof.
  unfold write_bytes. destruct (files !! p); rewrite lookup_insert_eq; eauto.
Qed.

Lemma extract_zip_file_quiet unzip zip_path dir s :
  timeline (trace_of (_extract_zip_file unzip zip_path dir s)) = [].
Proof.
  unfold _extract_zip_file, try_except2, try_except, extractall. mstep.
  destruct (st_files s !! zip_path) as [f|] eqn:Hf.
  - destruct (f_readable f); simpl.
    + mstep. destruct ((unzip (f_data f)).2) as [e|]; mstep.
      * unfold any_exception. rewrite orb_true_r.
        destruct (is_BadZipFile e); by mstep.
      * done.
    + by mstep.
  - by mstep.
Qed.

(** The archive and the extracted file never share a path. *)
Lemma path_join2_inj dir a b :
  starts_with_slash a = starts_with_slash b →
  path_join2 dir a = path_join2 dir b → a = b.
Proof.
  unfold path_join2. intros <-. destruct (starts_with_slash a); [done|].
  destruct (_ || _); intros H.
  - by apply (inj (String.app dir)) in H.
  - apply (inj (String.app dir)) in H. by apply (inj (String.app "/")) in H.
Qed.

Lemma csv_path_ne_zip_path cfg symbol data_type date interval :
  csv_path_of cfg symbol data_type date interval
  ≠ zip_path_of cfg symbol data_type date interval.
Proof.
  unfold csv_path_of, zip_path_of, os_path_join. simpl. intros H.
  apply path_join2_inj in H.
  - unfold csv_filename_of, zip_filename_of, get_output_filename in H.
    destruct (if_truthy interval);
      repeat (apply (inj (String.app _)) in H); discriminate.
  - unfold csv_filename_of, zip_filename_of, get_output_filename.
    destruct (if_truthy interval); by destruct symbol.
Qed.

(* ================================================================== *)
(** ** Extraction, clean-up and the second run *)

Lemma last_two {A} (l : list A) a b : last (l ++ [a; b]) = Some b.
Proof. change [a; b] with ([a] ++ [b]). rewrite app_assoc. apply last_snoc. Qed.

Section OutcomeTheorems.

Context (unzip : string → list (string * string) * option exn).
Context (cfg : config) (symbol data_type date : string) (interval : option string).

Local Abbreviation file_dir := (file_dir_of cfg symbol data_type interval).
Local Abbreviation zip_path := (zip_path_of cfg symbol data_type date interval).
Local Abbreviation csv_path := (csv_path_of cfg symbol data_type date interval).
Local Abbreviation zip_filename := (zip_filename_of symbol data_type date interval).
Local Abbreviation csv_filename := (csv_filename_of symbol data_type date interval).
Local Abbreviation fetch := (download_file unzip cfg symbol data_type date interval).
Local Abbreviation extract_from s := (_extract_zip_file unzip zip_path file_dir s).

Lemma download_file_first_attempt url s b s' t :
  build_download_url (base_url cfg) data_type symbol date interval = Return url →
  result_of (is_download_needed csv_path (overwrite_existing cfg) s) = Return true →
  (1 ≤ retry_attempts cfg)%Z →
  attempt_once unzip cfg url file_dir zip_path zip_filename csv_filename 0 s
  = (Return (Returned b), s', t) →
  fetch s = (Return b, s', t).
Proof.
  intros Hurl Hneed Hn Hrun.
  rewrite (download_file_needed _ _ _ _ _ _ url s Hurl Hneed). unfold range.
  rewrite seqZ_cons by lia. cbn [attempt_loop].
  rewrite (bind_Return _ _ _ _ _ _ Hrun). mstep. unfold ret, after. simpl.
  by rewrite app_nil_r.
Qed.




End OutcomeTheorems.

(** C7, as the code has it.  For a data type that takes no interval the
    URL is the documented
    [{base_url}{data_type}/{symbol}/{symbol}-{data_type}-{date}.zip]; for
    the four data types that take one it is
    [{base_url}{data_type}/{symbol}/{interval}/{symbol}-{interval}-{date}.zip],
    whose file name carries the interval but no data-type segment, and
    without an interval no URL is built. *)
Theorem download_url_layout base data_type symbol date interval :
  build_download_url base data_type symbol date interval
  = if str_in data_type INTERVAL_TYPES then
      match interval with
      | Some i =>
          Return (base +:+ data_type +:+ "/" +:+ symbol +:+ "/" +:+ i +:+ "/"
                  +:+ symbol +:+ "-" +:+ i +:+ "-" +:+ date +:+ ".zip")
      | None => Raise ValueError
      end
    else Return (documented_url base data_type symbol date interval).
Proof.
  unfold build_download_url, documented_url.
  by destruct (str_in data_type INTERVAL_TYPES).
Qed.

(* ================================================================== *)
(** ** The theorems on the example deployment *)

Ltac evaluate := vm_compute; reflexivity.











(** C7 as stated fails for the data types that take an interval: the file
    name in their URL has no data-type segment. *)
Lemma klines_url_has_no_data_type_segment :
  ¬ (∀ base data_type symbol date interval url,
       build_download_url base data_type symbol date interval = Return url →
       url = documented_url base data_type symbol date interval).
Proof.
  intros claim.
  specialize (claim "https://data.binance.vision/data/futures/um/daily/"
                "klines" "BTCUSDT" "2024-08-01" (Some "1h")
                "https://data.binance.vision/data/futures/um/daily/klines/BTCUSDT/1h/BTCUSDT-1h-2024-08-01.zip"
                eq_refl).
  vm_compute in claim. discriminate.
Qed.

(* ================================================================== *)
(** ** Task generation *)

Lemma date_loop_empty a b dates :
  (b < a)%Z → date_loop a b dates = Return dates.
Proof.
  intros Hlt. rewrite date_loop_equation_1.
  destruct (decide (a ≤ b)%Z); [lia|done].
Qed.

Lemma date_loop_range (n : nat) a b dates :
  Z.of_nat n = (b + 1 - a)%Z →
  (b < Calendar.MAX_ORDINAL)%Z →
  date_loop a b dates = Return (dates ++ (Calendar.strftime <$> seqZ a (Z.of_nat n))).
Proof.
  revert a dates. induction n as [|n IH]; intros a dates Hn Hmax.
  - rewrite date_loop_empty by lia. by rewrite app_nil_r.
  - rewrite date_loop_equation_1.
    destruct (decide (a ≤ b)%Z); [|lia]. simpl.
    destruct (decide (a + 1 ≤ Calendar.MAX_ORDINAL)%Z); [|lia]. simpl.
    rewrite IH by lia.
    rewrite Nat2Z.inj_succ, (seqZ_cons a) by lia.
    replace (Z.pred (Z.succ (Z.of_nat n))) with (Z.of_nat n) by lia.
    rewrite fmap_cons, <- app_assoc. simpl.
    by replace (Z.succ a) with (a + 1)%Z by lia.
Qed.

Lemma date_loop_overflow (n : nat) a b dates :
  Z.of_nat n = (Calendar.MAX_ORDINAL - a)%Z →
  (a ≤ b)%Z → (Calendar.MAX_ORDINAL ≤ b)%Z →
  date_loop a b dates = Raise OverflowError.
Proof.
  revert a dates. induction n as [|n IH]; intros a dates Hn Hab Hmax.
  - rewrite date_loop_equation_1.
    destruct (decide (a ≤ b)%Z); [|lia]. simpl.
    destruct (decide (a + 1 ≤ Calendar.MAX_ORDINAL)%Z); [lia|done].
  - rewrite date_loop_equation_1.
    destruct (decide (a ≤ b)%Z); [|lia]. simpl.
    destruct (decide (a + 1 ≤ Calendar.MAX_ORDINAL)%Z); [|done]. simpl.
    apply IH; lia.
Qed.

Lemma generate_date_range_run start_date end_date s :
  generate_date_range start_date end_date s
  = (match Calendar.strptime start_date,
           Calendar.strptime (resolved_end_date end_date s) with
     | Some a, Some b => date_loop a b []
     | _, _ => Raise ValueError
     end, s, []).
Proof.
  unfold generate_date_range, resolved_end_date, datetime_now_strftime, datetime_strptime.
  destruct (bool_decide _); mstep.
  - destruct (Calendar.strptime start_date); mstep; [|done].
    destruct (Calendar.strptime _); mstep; [|done].
    by destruct (date_loop _ _ _).
  - destruct (Calendar.strptime start_date); mstep; [|done].
    destruct (Calendar.strptime _); mstep; [|done].
    by destruct (date_loop _ _ _).
Qed.

Lemma enumerate_tasks_spec cfg dates pairs :
  enumerate_tasks cfg dates pairs
  = flat_map
      (λ date, (λ symbol, Task symbol date (data_types cfg) (kline_intervals cfg)) <$> pairs)
      dates.
Proof.
  unfold enumerate_tasks.
  assert (∀ date (l : list string) acc,
            foldl (λ tasks symbol,
                     tasks ++ [Task symbol date (data_types cfg) (kline_intervals cfg)])
              acc l
            = acc ++ ((λ symbol, Task symbol date (data_types cfg) (kline_intervals cfg)) <$> l))
    as Hinner.
  { intros date l. induction l as [|x l IH]; intros acc; simpl.
    - by rewrite app_nil_r.
    - rewrite IH, <- app_assoc. done. }
  assert (∀ (l : list string) acc,
            foldl (λ tasks date,
                     foldl (λ tasks symbol,
                              tasks ++ [Task symbol date (data_types cfg) (kline_intervals cfg)])
                       tasks pairs)
              acc l
            = acc ++ flat_map
                       (λ date, (λ symbol, Task symbol date (data_types cfg)
                                             (kline_intervals cfg)) <$> pairs) l)
    as Houter.
  { intros l. induction l as [|d l IH]; intros acc; simpl.
    - by rewrite app_nil_r.
    - rewrite IH, Hinner, <- app_assoc. done. }
  apply (Houter dates []).
Qed.

Lemma enumerate_tasks_no_pairs cfg dates : enumerate_tasks cfg dates [] = [].
Proof.
  rewrite enumerate_tasks_spec. induction dates as [|d l IH]; [done|]. by simpl.
Qed.

Lemma fetch_all_pairs_run s :
  try_except
    (pairs <- get_all_trading_pairs ;;
     log INFO (MsgFoundPairs (Z.of_nat (length pairs)));;
     ret (Some pairs))
    any_exception
    (λ e, log ERROR (MsgFetchPairsFailed e);; ret None) s
  = match st_exchange s with
    | Some pairs =>
        (Return (Some pairs), s, [EvLog INFO (MsgFoundPairs (Z.of_nat (length pairs)))])
    | None => (Return None, s, [EvLog ERROR (MsgFetchPairsFailed Exception)])
    end.
Proof.
  unfold try_except, get_all_trading_pairs. mstep.
  destruct (st_exchange s) as [pairs|]; by mstep.
Qed.

Lemma generate_download_tasks_run cfg s :
  generate_download_tasks cfg s
  = match result_of (generate_date_range (start_date cfg) (end_date cfg) s) with
    | Raise e => (Raise e, s, [])
    | Return [] => (Raise IndexError, s, [])
    | Return (first :: more) =>
        let dates := first :: more in
        let range_log :=
          EvLog INFO (MsgDateRange (Z.of_nat (length dates)) first
                        (default first (last dates))) in
        match trading_pairs cfg with
        | [] =>
            match st_exchange s with
            | None =>
                (Return [], s,
                 [range_log; EvLog INFO MsgFetchingAllPairs;
                  EvLog ERROR (MsgFetchPairsFailed Exception)])
            | Some pairs =>
                (Return (enumerate_tasks cfg dates pairs), s,
                 [range_log; EvLog INFO MsgFetchingAllPairs;
                  EvLog INFO (MsgFoundPairs (Z.of_nat (length pairs)));
                  EvLog INFO (MsgGenerated
                                (Z.of_nat (length (enumerate_tasks cfg dates pairs))))])
            end
        | _ :: _ =>
            (Return (enumerate_tasks cfg dates (trading_pairs cfg)), s,
             [range_log;
              EvLog INFO (MsgUsingPairs (Z.of_nat (length (trading_pairs cfg))));
              EvLog INFO (MsgGenerated
                            (Z.of_nat (length (enumerate_tasks cfg dates
                                                 (trading_pairs cfg)))))])
        end
    end.
Proof.
  unfold generate_download_tasks.
  assert (∃ o, generate_date_range (start_date cfg) (end_date cfg) s = (o, s, []))
    as [o Ho] by (rewrite generate_date_range_run; eauto).
  rewrite Ho. unfold result_of. cbn [fst snd].
  destruct o as [dates|e]; [|by rewrite (bind_Raise _ _ _ _ _ _ Ho)].
  rewrite (bind_Return _ _ _ _ _ _ Ho), after_nil.
  destruct dates as [|first more]; [done|].
  unfold first_item, last_item. mstep.
  destruct (last (first :: more)) as [final|] eqn:Hlast.
  2:{ assert (is_Some (last (first :: more))) as [x Hx] by (by apply last_is_Some).
      congruence. }
  mstep. simpl default.
  destruct (trading_pairs cfg) as [|p ps]; mstep.
  - pose proof (fetch_all_pairs_run s) as Hpairs.
    destruct (st_exchange s) as [pairs|];
      rewrite (bind_Return _ _ _ _ _ _ Hpairs); by mstep.
  - done.
Qed.

Lemma task_starts_app t1 t2 : task_starts (t1 ++ t2) = task_starts t1 ++ task_starts t2.
Proof. apply omap_app. Qed.

Section MainFacts.

Context (unzip : string → list (string * string) * option exn).
Context (cfg : config).

Lemma main_without_tasks s o tg :
  generate_download_tasks cfg s = (o, s, tg) →
  o = Return [] ∨ (∃ e, o = Raise e) →
  ∃ tl,
    main unzip cfg s = (Return 1%Z, s, EvLog INFO MsgStarted :: EvLog INFO MsgConfigLoaded :: tg ++ tl)
    ∧ timeline tl = [] ∧ task_starts tl = [].
Proof.
  intros Hgen Ho. unfold main, try_except. mstep.
  destruct Ho as [->|[e ->]].
  - rewrite (bind_Return _ _ _ _ _ _ Hgen). mstep.
    exists [EvLog ERROR MsgNoTasks]. unfold ret, after; simpl.
    by rewrite app_nil_r.
  - rewrite (bind_Raise _ _ _ _ _ _ Hgen). mstep. simpl.
    exists [EvLog ERROR (MsgMainUnexpected e)]. unfold ret, after; simpl.
    by rewrite app_nil_r.
Qed.


End MainFacts.

(* ================================================================== *)
(** ** The files a symbol and a date expand to *)

Lemma bind_ret_r {A} (m : M A) s : bind m ret s = m s.
Proof.
  unfold bind. destruct (m s) as [[[a|e] s1] t1]; [|done].
  unfold ret, after; simpl. by rewrite app_nil_r.
Qed.

Lemma bind_ext {A B} (m1 m2 : M A) (k1 k2 : A → M B) s :
  m1 s = m2 s → (∀ a s', k1 a s' = k2 a s') → bind m1 k1 s = bind m2 k2 s.
Proof.
  intros Hm Hk. unfold bind. rewrite Hm.
  destruct (m2 s) as [[[a|e] s1] t1]; [|done]. by rewrite Hk.
Qed.

Lemma for_each_ext {A S} (l : list A) (body1 body2 : A → S → M S) acc s :
  (∀ x acc' s', body1 x acc' s' = body2 x acc' s') →
  for_each l body1 acc s = for_each l body2 acc s.
Proof.
  intros Hbody. revert acc s. induction l as [|x l IH]; intros acc s; [done|].
  simpl. by apply bind_ext.
Qed.

Lemma for_each_app {A S} (l1 l2 : list A) (body : A → S → M S) acc s :
  for_each (l1 ++ l2) body acc s
  = bind (for_each l1 body acc) (for_each l2 body) s.
Proof.
  revert acc s. induction l1 as [|x l1 IH]; intros acc s; simpl.
  - by rewrite bind_ret.
  - rewrite bind_bind. by apply bind_ext.
Qed.

Lemma for_each_fmap {A B S} (f : A → B) (l : list A) (body : B → S → M S) acc s :
  for_each (f <$> l) body acc s = for_each l (λ x, body (f x)) acc s.
Proof.
  revert acc s. induction l as [|x l IH]; intros acc s; [done|].
  simpl. by apply bind_ext.
Qed.

Lemma for_each_one {A S} (x : A) (body : A → S → M S) acc s :
  for_each [x] body acc s = body x acc s.
Proof. simpl. apply bind_ret_r. Qed.

Section PlanFacts.

Context (fetch : string → string → string → option string → M bool).

Lemma download_symbol_data_with_plan symbol date data_types kline_intervals s :
  download_symbol_data_with fetch symbol date data_types kline_intervals s
  = for_each (symbol_data_plan symbol date data_types kline_intervals)
      (run_step fetch) ∅ s.
Proof.
  unfold download_symbol_data_with, symbol_data_plan.
  generalize (∅ : gmap string bool). revert s.
  induction data_types as [|[data_type enabled] rest IH]; intros s results; [done|].
  cbn [for_each flat_map]. rewrite for_each_app.
  apply bind_ext; [|done].
  destruct enabled; simpl; [|done].
  destruct (str_in data_type INTERVAL_TYPES).
  - destruct kline_intervals as [|i l].
    + by rewrite for_each_one.
    + by rewrite for_each_fmap.
  - by rewrite for_each_one.
Qed.

End PlanFacts.

Lemma plan_fetches_app p1 p2 : plan_fetches (p1 ++ p2) = plan_fetches p1 ++ plan_fetches p2.
Proof. apply omap_app. Qed.

Lemma plan_fetches_intervals symbol date data_type (intervals : list string) :
  plan_fetches
    ((λ interval,
        StepFetch (data_type +:+ "_" +:+ interval)
          (FileTask symbol date data_type (Some interval))) <$> intervals)
  = (λ interval, FileTask symbol date data_type (Some interval)) <$> intervals.
Proof.
  induction intervals as [|i l IH]; [done|].
  rewrite !fmap_cons. cbn [plan_fetches omap]. fold (plan_fetches). by rewrite <- IH.
Qed.

Lemma plan_fetches_spec symbol date data_types kline_intervals :
  plan_fetches (symbol_data_plan symbol date data_types kline_intervals)
  = flat_map
      (λ '((data_type, enabled) : string * bool),
         if enabled then
           if str_in data_type INTERVAL_TYPES
           then (λ interval, FileTask symbol date data_type (Some interval))
                <$> kline_intervals
           else [FileTask symbol date data_type None]
         else [])
      data_types.
Proof.
  unfold symbol_data_plan.
  induction data_types as [|[data_type enabled] rest IH]; [done|].
  cbn [flat_map]. rewrite plan_fetches_app, IH. f_equal.
  destruct enabled; simpl; [|done].
  destruct (str_in data_type INTERVAL_TYPES); [|done].
  destruct kline_intervals as [|i l]; [done|].
  apply plan_fetches_intervals.
Qed.

Lemma flat_map_fmap {A B C} (g : B → list C) (f : A → B) (l : list A) :
  flat_map g (f <$> l) = flat_map (λ x, g (f x)) l.
Proof.
  induction l as [|x l IH]; [done|].
  rewrite fmap_cons. cbn [flat_map]. by rewrite IH.
Qed.

Lemma flat_map_nested {A B C} (g : B → list C) (h : A → list B) (l : list A) :
  flat_map g (flat_map h l) = flat_map (λ x, flat_map g (h x)) l.
Proof.
  induction l as [|x l IH]; [done|]. simpl. by rewrite flat_map_app, IH.
Qed.

Lemma flat_map_length_const {A B} (f : A → list B) (l : list A) (c : nat) :
  (∀ x, length (f x) = c) → length (flat_map f l) = (length l * c)%nat.
Proof.
  intros Hf. induction l as [|x l IH]; [done|].
  simpl. rewrite length_app, Hf, IH. done.
Qed.

Lemma expansion_length symbol date data_types (intervals : list string) :
  length (flat_map
            (λ '((data_type, enabled) : string * bool),
               if enabled then
                 if str_in data_type INTERVAL_TYPES
                 then (λ interval, FileTask symbol date data_type (Some interval))
                      <$> intervals
                 else [FileTask symbol date data_type None]
               else [])
            data_types)
  = (enabled_simple_types data_types
     + enabled_interval_types data_types * length intervals)%nat.
Proof.
  unfold enabled_simple_types, enabled_interval_types.
  induction data_types as [|[data_type enabled] rest IH]; [done|].
  cbn [flat_map]. rewrite length_app, IH.
  destruct enabled.
  - destruct (str_in data_type INTERVAL_TYPES) eqn:Hin.
    + rewrite (filter_cons_False _ (data_type, true)) by (simpl; rewrite Hin; intros [??]; done).
      rewrite (filter_cons_True _ (data_type, true)) by (simpl; by rewrite Hin).
      rewrite length_fmap. simpl. lia.
    + rewrite (filter_cons_True _ (data_type, true)) by (simpl; by rewrite Hin).
      rewrite (filter_cons_False _ (data_type, true)) by (simpl; rewrite Hin; intros [??]; done).
      simpl. lia.
  - rewrite !(filter_cons_False _ (data_type, false)) by (simpl; intros [??]; done).
    simpl. lia.
Qed.

Lemma documented_tasks_length dates symbols data_types intervals :
  length (documented_tasks dates symbols data_types intervals)
  = (length dates * length symbols * enabled_simple_types data_types
     + length dates * length symbols * enabled_interval_types data_types
       * length intervals)%nat.
Proof.
  unfold documented_tasks.
  rewrite (flat_map_length_const _ dates
             (length symbols
              * (enabled_simple_types data_types
                 + enabled_interval_types data_types * length intervals))).
  - rewrite !Nat.mul_add_distr_l, !Nat.mul_assoc. done.
  - intros date. apply flat_map_length_const. intros symbol. apply expansion_length.
Qed.

(* ================================================================== *)
(** ** The Generator and the aggregation *)


Lemma warnings_only_plan fetch p acc s :
  plan_fetches p = [] →
  ∃ tw, for_each p (run_step fetch) acc s = (Return acc, s, tw) ∧ timeline tw = [].
Proof.
  intros Hp. induction p as [|[key ft|data_type] p IH].
  - by exists [].
  - discriminate.
  - destruct (IH Hp) as (tw & Hrun & Htw).
    exists (EvLog WARNING (MsgNoIntervals data_type) :: tw). split; [|done].
    cbn [for_each run_step]. mstep. rewrite Hrun. by mstep.
Qed.

Section AggregationFacts.

Context (unzip : string → list (string * string) * option exn).
Context (cfg : config).


End AggregationFacts.




(** The first scenario of the specification: one day, one symbol, one
    data type; a valid archive makes the task succeed and leaves the csv,
    and only the csv, under the documented path. *)
Example single_task_scenario :
  let s := Sample.disk ∅ [Sample.ok Sample.archive] in
  let run := main Sample.unzip Sample.cfg s in
  result_of run = Return 0%Z
  ∧ http_requests (trace_of run) = [Sample.url]
  ∧ task_starts (trace_of run) = [("BTCUSDT", "2024-08-01")]
  ∧ st_files (state_of run) = {[Sample.csv_path := File Sample.csv_rows true]}
  ∧ last (trace_of run) = Some (EvLog INFO MsgFinished).
Proof. repeat split; evaluate. Qed.

Example generate_date_range_over_leap_day :
  result_of (generate_date_range "2024-02-28" "2024-03-01" (Sample.disk ∅ []))
  = Return ["2024-02-28"; "2024-02-29"; "2024-03-01"].
Proof. evaluate. Qed.

Example generate_date_range_latest :
  result_of (generate_date_range "2024-08-14" "LATEST" (Sample.disk ∅ []))
  = Return ["2024-08-14"; "2024-08-15"].
Proof. evaluate. Qed.

Example generate_date_range_end_of_calendar :
  result_of (generate_date_range "9999-12-30" "9999-12-31" (Sample.disk ∅ []))
  = Raise OverflowError.
Proof. evaluate. Qed.

Example header_only_csv_is_downloaded_again :
  let s := Sample.disk {[Sample.csv_path := File "agg_trade_id,price" true]}
             [Sample.ok Sample.archive] in
  let run := download_file Sample.unzip Sample.cfg "BTCUSDT" "aggTrades" "2024-08-01" None s in
  result_of run = Return true
  ∧ http_requests (trace_of run) = [Sample.url]
  ∧ st_files (state_of run) = {[Sample.csv_path := File Sample.csv_rows true]}.
Proof. repeat split; evaluate. Qed.

(** The three URLs that [test_download.py] builds. *)
Example url_of_aggTrades :
  build_download_url "https://data.binance.vision/data/futures/um/daily/"
    "aggTrades" "BTCUSDT" "2024-08-01" None
  = Return "https://data.binance.vision/data/futures/um/daily/aggTrades/BTCUSDT/BTCUSDT-aggTrades-2024-08-01.zip".
Proof. reflexivity. Qed.

Example url_of_klines :
  build_download_url "https://data.binance.vision/data/futures/um/daily/"
    "klines" "BTCUSDT" "2024-08-01" (Some "1h")
  = Return "https://data.binance.vision/data/futures/um/daily/klines/BTCUSDT/1h/BTCUSDT-1h-2024-08-01.zip".
Proof. reflexivity. Qed.

Example url_of_indexPriceKlines :
  build_download_url "https://data.binance.vision/data/futures/um/daily/"
    "indexPriceKlines" "BTCUSDT" "2024-08-01" (Some "1d")
  = Return "https://data.binance.vision/data/futures/um/daily/indexPriceKlines/BTCUSDT/1d/BTCUSDT-1d-2024-08-01.zip".
Proof. reflexivity. Qed.

Example url_needs_interval :
  build_download_url "https://data.binance.vision/data/futures/um/daily/"
    "klines" "BTCUSDT" "2024-08-01" None
  = Raise ValueError.
Proof. reflexivity. Qed.

(** The archive of an interval data type is stored under a name that
    carries the data type, unlike its URL. *)
Example klines_paths :
  zip_path_of Sample.cfg "BTCUSDT" "klines" "2024-08-01" (Some "1h")
  = "./data/klines/BTCUSDT/1h/BTCUSDT-klines-1h-2024-08-01.zip"
  ∧ csv_path_of Sample.cfg "BTCUSDT" "klines" "2024-08-01" (Some "1h")
    = "./data/klines/BTCUSDT/1h/BTCUSDT-klines-1h-2024-08-01.csv".
Proof. split; reflexivity. Qed.

(** The resume check at its thresholds: 100 bytes in two lines are
    enough, 99 are not, one long line is not, and neither is a file that
    does not decode or cannot be opened. *)
Example resume_check_at_100_bytes :
  Sample.needed_for (File ("h" +:+ String LF "" +:+ Sample.padded 98) true) = Return false.
Proof. vm_compute. reflexivity. Qed.

Example resume_check_at_99_bytes :
  Sample.needed_for (File ("h" +:+ String LF "" +:+ Sample.padded 97) true) = Return true.
Proof. vm_compute. reflexivity. Qed.

Example resume_check_single_line :
  Sample.needed_for (File (Sample.padded 200 +:+ String LF "") true) = Return true.
Proof. vm_compute. reflexivity. Qed.

Example resume_check_not_utf8 :
  Sample.needed_for (File ("h" +:+ String LF "" +:+ Sample.padded 98 +:+ String (ascii_of_nat 255) "") true)
  = Return true.
Proof. vm_compute. reflexivity. Qed.

Example resume_check_unreadable :
  Sample.needed_for (File ("h" +:+ String LF "" +:+ Sample.padded 98) false) = Return true.
Proof. vm_compute. reflexivity. Qed.

Example resume_check_missing :
  result_of (is_download_needed Sample.csv_path false (Sample.disk ∅ [])) = Return true.
Proof. vm_compute. reflexivity. Qed.

Example resume_check_overwrite :
  result_of (is_download_needed Sample.csv_path true
               (Sample.disk {[Sample.csv_path := File Sample.csv_rows true]} []))
  = Return true.
Proof. vm_compute. reflexivity. Qed.

(* ================================================================== *)
(** ** What every run of [download_file] has in common *)

Section KeepsFacts.

Context (unzip : string → list (string * string) * option exn).
Context (file_dir zip_path : string).

Local Abbreviation keeps := (keeps unzip file_dir zip_path).

Lemma keeps_refl s : keeps s s.
Proof. by repeat split. Qed.

Lemma keeps_trans s1 s2 s3 : keeps s1 s2 → keeps s2 s3 → keeps s1 s3.
Proof.
  intros (Hp1 & Hn1 & He1 & Ht1 & Hf1 & Hk1) (Hp2 & Hn2 & He2 & Ht2 & Hf2 & Hk2).
  repeat split; try congruence.
  - intros p Hp Hm. rewrite Hf2, Hf1; done.
  - intros p Hp Hs. apply Hk2, Hk1; done.
Qed.

Lemma keeps_same_fields s s' :
  st_files s' = st_files s → st_pinned s' = st_pinned s → st_net s' = st_net s →
  st_exchange s' = st_exchange s → st_today s' = st_today s → keeps s s'.
Proof. intros Hf ????. repeat split; try done; intros p; by rewrite Hf. Qed.

Lemma keeps_write_zip data s : keeps s (set_files (write_bytes zip_path data) s).
Proof.
  repeat split; try done; simpl.
  - intros p Hp _. by apply write_bytes_lookup_ne.
  - intros p _ Hs. by apply write_bytes_keeps.
Qed.

Lemma keeps_delete_zip s : keeps s (set_files (delete zip_path) s).
Proof.
  repeat split; try done; simpl.
  - intros p Hp _. by apply lookup_delete_ne.
  - intros p Hp Hs. by rewrite lookup_delete_ne.
Qed.

Lemma keeps_extract s :
  keeps s (state_of (_extract_zip_file unzip zip_path file_dir s)).
Proof.
  destruct (extract_zip_file_files unzip zip_path file_dir s) as (Hp & Hn & Hf).
  assert (st_exchange (state_of (_extract_zip_file unzip zip_path file_dir s))
          = st_exchange s
          ∧ st_today (state_of (_extract_zip_file unzip zip_path file_dir s))
            = st_today s) as [He Ht].
  { unfold _extract_zip_file, try_except2, try_except, extractall. mstep.
    destruct (st_files s !! zip_path) as [f|].
    - destruct (f_readable f); simpl.
      + mstep. destruct ((unzip (f_data f)).2) as [e|]; mstep.
        * unfold any_exception. rewrite orb_true_r.
          destruct (is_BadZipFile e); by mstep.
        * done.
      + by mstep.
    - by mstep. }
  repeat split; try done.
  - intros p Hne Hm. destruct Hf as [->|(f & _ & ->)]; [done|].
    by apply write_members_lookup_other.
  - intros p Hne Hs. destruct Hf as [->|(f & _ & ->)]; [done|].
    by apply write_members_keeps.
Qed.

Lemma keeps_set_net q s s' : keeps s s' → keeps (set_net q s) (set_net q s').
Proof.
  intros (Hp & Hn & He & Ht & Hf & Hk). by repeat split.
Qed.

Lemma keeps_after_net q s1 s2 s3 :
  keeps (set_net (tail q) s1) s2 →
  keeps (set_net (tail (tail q)) s2) s3 →
  keeps (set_net (tail (tail q)) s1) s3.
Proof.
  intros H12 H23. eapply keeps_trans; [|exact H23].
  apply (keeps_set_net (tail (tail q))) in H12.
  destruct H12 as (Hp & Hn & He & Ht & Hf & Hk). by repeat split.
Qed.

End KeepsFacts.

Section AttemptEffect.

Context (unzip : string → list (string * string) * option exn).
Context (cfg : config).
Context (url file_dir zip_path zip_filename csv_filename : string).

Local Abbreviation keeps := (keeps unzip file_dir zip_path).
Local Abbreviation body :=
  (attempt_body unzip cfg url file_dir zip_path zip_filename csv_filename).
Local Abbreviation once :=
  (attempt_once unzip cfg url file_dir zip_path zip_filename csv_filename).
Local Abbreviation loop :=
  (attempt_loop unzip cfg url file_dir zip_path zip_filename csv_filename).

Ltac leaf Hquiet :=
  eexists _, _, _; split; [reflexivity|]; split;
  [ rewrite ?timeline_app, ?Hquiet; reflexivity | ].

Lemma attempt_body_effect attempt s :
  ∃ o s' t,
    body attempt s = (o, s', t)
    ∧ timeline t = [EvSleep Throttle (rate_limit_delay cfg); EvGet url]
    ∧ keeps (set_net (tail (st_net s)) s) s'.
Proof.
  unfold attempt_body. mstep. unfold bind at 1. rewrite session_get_run.
  destruct (st_net s) as [|[|resp] rest] eqn:Hnet; cbv beta iota.
  - mstep. leaf I. by apply keeps_same_fields.
  - mstep. leaf I. apply keeps_refl.
  - destruct (status_code resp =? 404)%Z.
    { mstep. leaf I. apply keeps_refl. }
    unfold raise_for_status.
    destruct ((400 <=? status_code resp)%Z && (status_code resp <? 600)%Z).
    { mstep. leaf I. apply keeps_refl. }
    mstep. unfold declared_size.
    destruct (content_length resp) as [n|]; mstep; [|leaf I; apply keeps_refl].
    unfold stream_to_file, open_write. mstep. fold (streamed resp).
    destruct (body_complete resp); mstep; [|leaf I; apply keeps_write_zip].
    destruct (auto_extract cfg); [|mstep; leaf I; apply keeps_write_zip].
    pose proof (keeps_extract unzip file_dir zip_path
                  (set_files (write_bytes zip_path (streamed resp)) (set_net rest s)))
      as Hkeep.
    pose proof (extract_zip_file_quiet unzip zip_path file_dir
                  (set_files (write_bytes zip_path (streamed resp)) (set_net rest s)))
      as Hquiet.
    destruct (extract_zip_file_total unzip zip_path file_dir
                (set_files (write_bytes zip_path (streamed resp)) (set_net rest s)))
      as (ok & s3 & t3 & Hex).
    rewrite Hex in Hkeep, Hquiet. unfold state_of, trace_of in *. cbn [fst snd] in *.
    assert (keeps (set_net rest s) s3) as Hs3
      by (eapply keeps_trans; [apply keeps_write_zip|exact Hkeep]).
    mstep. rewrite (bind_Return _ _ _ _ _ _ Hex).
    destruct ok; mstep; [|leaf Hquiet; exact Hs3].
    destruct (delete_zip cfg); mstep; [|leaf Hquiet; exact Hs3].
    unfold bind at 1. rewrite os_remove_run.
    destruct (bool_decide (zip_path ∈ st_pinned s3)); [mstep; leaf Hquiet; exact Hs3|].
    destruct (st_files s3 !! zip_path); mstep; [|leaf Hquiet; exact Hs3].
    leaf Hquiet. eapply keeps_trans; [exact Hs3|apply keeps_delete_zip].
Qed.

Lemma attempt_once_effect attempt s :
  ∃ f s' t,
    once attempt s = (Return f, s', t)
    ∧ keeps (set_net (tail (st_net s)) s) s'
    ∧ timeline t
      = [EvSleep Throttle (rate_limit_delay cfg); EvGet url]
        ++ match f with
           | NextAttempt => [EvSleep Backoff (retry_delay cfg)]
           | Returned _ => []
           end
    ∧ (f = NextAttempt → (attempt < retry_attempts cfg - 1)%Z).
Proof.
  destruct (attempt_body_effect attempt s) as (o & s1 & t1 & Hb & Htl & Hk).
  unfold attempt_once, try_except2, try_except.
  destruct o as [b|e].
  - rewrite (bind_Return _ _ _ _ _ _ Hb). mstep. unfold ret, after; simpl.
    eexists _, _, _. split; [reflexivity|]. split; [exact Hk|].
    split; [by rewrite !app_nil_r, Htl|done].
  - rewrite (bind_Raise _ _ _ _ _ _ Hb).
    unfold any_exception. rewrite orb_true_r.
    destruct (is_RequestException e); mstep.
    + destruct (Z.ltb_spec attempt (retry_attempts cfg - 1)); mstep;
        unfold ret, after; simpl;
        (eexists _, _, _; split; [reflexivity|]; split; [exact Hk|]);
        rewrite ?app_nil_r, !timeline_app, Htl; done.
    + unfold ret, after; simpl.
      eexists _, _, _. split; [reflexivity|]. split; [exact Hk|].
      rewrite ?app_nil_r, !timeline_app, Htl. done.
Qed.

Lemma keeps_chain x y s s1 s' :
  keeps (set_net x s) s1 → keeps (set_net y s1) s' → keeps (set_net y s) s'.
Proof.
  intros (Hp1 & Hn1 & He1 & Ht1 & Hf1 & Hk1) (Hp2 & Hn2 & He2 & Ht2 & Hf2 & Hk2).
  simpl in *. repeat split; simpl; try congruence.
  - intros p Hp Hm. rewrite Hf2, Hf1; done.
  - intros p Hp Hs. apply Hk2, Hk1; done.
Qed.

Lemma attempt_loop_effect (len : nat) i s :
  (i + Z.of_nat len = retry_attempts cfg)%Z →
  ∃ b s' t (k : nat),
    loop (seqZ i (Z.of_nat len)) s = (Return b, s', t)
    ∧ (k ≤ len)%nat ∧ ((1 ≤ len)%nat → (1 ≤ k)%nat)
    ∧ timeline t = retry_timeline cfg url k
    ∧ keeps (set_net (drop k (st_net s)) s) s'.
Proof.
  revert i s. induction len as [|len IH]; intros i s Hi.
  - exists false, s, [], 0%nat.
    split; [done|]. split; [lia|]. split; [lia|]. split; [done|].
    rewrite drop_0. by apply keeps_same_fields.
  - rewrite Nat2Z.inj_succ, seqZ_cons by lia.
    replace (Z.pred (Z.succ (Z.of_nat len))) with (Z.of_nat len) by lia.
    cbn [attempt_loop].
    destruct (attempt_once_effect i s) as (f & s1 & t1 & Hrun & Hk1 & Htl1 & Hnext).
    rewrite (bind_Return _ _ _ _ _ _ Hrun).
    destruct f as [b|].
    + mstep. unfold ret, after; simpl.
      exists b, s1, (t1 ++ []), 1%nat. split; [done|].
      split; [lia|]. split; [done|].
      split; [by rewrite !app_nil_r, Htl1|].
      by destruct (st_net s).
    + specialize (Hnext eq_refl).
      destruct (IH (Z.succ i) s1) as (b & s2 & t2 & k & Hrest & Hle & Hpos & Htl2 & Hk2);
        [lia|].
      rewrite Hrest. mstep.
      exists b, s2, (t1 ++ t2), (S k). split; [done|].
      split; [lia|]. split; [lia|].
      split.
      * rewrite timeline_app, Htl1, Htl2.
        destruct k as [|k']; [lia|]. done.
      * pose proof Hk1 as (_ & Hn1 & _). simpl in Hn1. rewrite Hn1 in Hk2.
        eapply keeps_chain; [exact Hk1|].
        replace (drop (S k) (st_net s)) with (drop k (tail (st_net s)));
          [exact Hk2|destruct (st_net s); simpl; [by rewrite drop_nil|done]].
Qed.

End AttemptEffect.

Section FetcherInvariants.

Context (unzip : string → list (string * string) * option exn).
Context (cfg : config) (symbol data_type date : string) (interval : option string).

Local Abbreviation file_dir := (file_dir_of cfg symbol data_type interval).
Local Abbreviation zip_path := (zip_path_of cfg symbol data_type date interval).
Local Abbreviation csv_path := (csv_path_of cfg symbol data_type date interval).
Local Abbreviation fetch := (download_file unzip cfg symbol data_type date interval).

Lemma download_file_unresolved e s :
  build_download_url (base_url cfg) data_type symbol date interval = Raise e →
  fetch s = (Return false, s, [EvLog ERROR (MsgErrorInDownloadFile e)]).
Proof.
  intros Hurl. unfold download_file, try_except. rewrite Hurl. by mstep.
Qed.

Lemma download_file_effect s :
  ∃ b (k : nat),
    result_of (fetch s) = Return b
    ∧ (k ≤ Z.to_nat (retry_attempts cfg))%nat
    ∧ keeps unzip file_dir zip_path (set_net (drop k (st_net s)) s) (state_of (fetch s))
    ∧ (∀ url,
         build_download_url (base_url cfg) data_type symbol date interval = Return url →
         timeline (trace_of (fetch s)) = retry_timeline cfg url k)
    ∧ (∀ e,
         build_download_url (base_url cfg) data_type symbol date interval = Raise e →
         k = 0%nat ∧ timeline (trace_of (fetch s)) = []).
Proof.
  destruct (build_download_url (base_url cfg) data_type symbol date interval)
    as [url|e] eqn:Hurl.
  - rewrite (download_file_resolved _ _ _ _ _ _ url s Hurl).
    destruct (overwrite_existing cfg || negb (complete_csv (st_files s) csv_path)).
    + destruct (attempt_loop_effect unzip cfg url file_dir zip_path
                  (zip_filename_of symbol data_type date interval)
                  (csv_filename_of symbol data_type date interval)
                  (Z.to_nat (retry_attempts cfg))
                  (retry_attempts cfg - Z.of_nat (Z.to_nat (retry_attempts cfg))) s)
        as (b & s' & t & k & Hrun & Hle & _ & Htl & Hkeep); [lia|].
      assert (range (retry_attempts cfg)
              = seqZ (retry_attempts cfg - Z.of_nat (Z.to_nat (retry_attempts cfg)))
                  (Z.of_nat (Z.to_nat (retry_attempts cfg)))) as ->.
      { unfold range. destruct (decide (0 ≤ retry_attempts cfg)%Z).
        - rewrite Z2Nat.id by done. f_equal. lia.
        - replace (Z.to_nat (retry_attempts cfg)) with 0%nat by lia.
          unfold seqZ. by replace (Z.to_nat (retry_attempts cfg)) with 0%nat by lia. }
      rewrite Hrun. exists b, k. unfold result_of, state_of, trace_of. cbn [fst snd].
      split; [done|]. split; [done|]. split; [done|].
      split; [by intros ? [= <-]|done].
    + exists true, 0%nat. unfold result_of, state_of, trace_of. cbn [fst snd].
      split; [done|]. split; [lia|].
      split; [rewrite drop_0; by apply keeps_same_fields|].
      split; [done|done].
  - rewrite (download_file_unresolved e s Hurl).
    exists false, 0%nat. unfold result_of, state_of, trace_of. cbn [fst snd].
    split; [done|]. split; [lia|].
    split; [rewrite drop_0; by apply keeps_same_fields|].
    split; [done|done].
Qed.

(** X1.  [download_file] never lets an exception out: whatever the task,
    the files and the network, it returns [True] or [False]. *)
Theorem download_file_never_raises s :
  ∃ b, result_of (fetch s) = Return b.
Proof. destruct (download_file_effect s) as (b & _ & Hres & _). eauto. Qed.

(** X2.  Every run of [download_file] on a task that resolves to [url]
    makes some number [k] of attempts, at most [retry_attempts]: its
    sleeps and requests are, in order, a throttle sleep and a request to
    [url] for each attempt with one retry pause between two attempts, and
    it takes exactly [k] results off the network queue. *)
Theorem download_file_paces_its_requests url s :
  build_download_url (base_url cfg) data_type symbol date interval = Return url →
  ∃ k : nat,
    (Z.of_nat k ≤ Z.max 0 (retry_attempts cfg))%Z
    ∧ timeline (trace_of (fetch s)) = retry_timeline cfg url k
    ∧ http_requests (trace_of (fetch s)) = replicate k url
    ∧ sleeps_at Throttle (trace_of (fetch s)) = replicate k (rate_limit_delay cfg)
    ∧ sleeps_at Backoff (trace_of (fetch s)) = replicate (k - 1) (retry_delay cfg)
    ∧ st_net (state_of (fetch s)) = drop k (st_net s).
Proof.
  intros Hurl.
  destruct (download_file_effect s) as (b & k & _ & Hle & Hkeep & Htl & _).
  specialize (Htl url Hurl). exists k.
  split; [lia|]. split; [exact Htl|].
  rewrite <- (http_requests_timeline (trace_of _)),
          <- !(sleeps_at_timeline _ (trace_of _)), Htl.
  rewrite retry_timeline_requests, retry_timeline_throttles, retry_timeline_pauses.
  repeat split; try done. by destruct Hkeep as (_ & Hnet & _).
Qed.

(** X3.  [download_file] stays within the paths of its task: it leaves the
    pinned paths, the exchange and the date alone, every path other than
    its archive that no extraction into its directory writes to holds
    afterwards what it held before, and no file other than the archive is
    ever removed. *)
Theorem download_file_stays_in_its_paths s :
  st_pinned (state_of (fetch s)) = st_pinned s
  ∧ st_exchange (state_of (fetch s)) = st_exchange s
  ∧ st_today (state_of (fetch s)) = st_today s
  ∧ (∀ p, p ≠ zip_path →
          (∀ data, p ∉ member_paths file_dir (unzip data).1) →
          st_files (state_of (fetch s)) !! p = st_files s !! p)
  ∧ (∀ p, p ≠ zip_path →
          is_Some (st_files s !! p) → is_Some (st_files (state_of (fetch s)) !! p)).
Proof.
  destruct (download_file_effect s)
    as (b & k & _ & _ & (Hp & _ & He & Ht & Hf & Hk) & _).
  by repeat split.
Qed.

End FetcherInvariants.

(** X4.  A task of a data type that takes an interval, given without one,
    fails at once: [download_file] returns [False] having logged the
    [ValueError], with no request, no sleep and the state untouched. *)
Theorem missing_interval_fails_the_task unzip cfg symbol data_type date s :
  str_in data_type INTERVAL_TYPES = true →
  download_file unzip cfg symbol data_type date None s
  = (Return false, s, [EvLog ERROR (MsgErrorInDownloadFile ValueError)]).
Proof.
  intros Hin. apply download_file_unresolved.
  unfold build_download_url. by rewrite Hin.
Qed.

(* ================================================================== *)
(** ** Failures first, then an answer *)

Section AfterFailures.

Context (unzip : string → list (string * string) * option exn).
Context (cfg : config).
Context (url file_dir zip_path zip_filename csv_filename : string).

Local Abbreviation once :=
  (attempt_once unzip cfg url file_dir zip_path zip_filename csv_filename).
Local Abbreviation loop :=
  (attempt_loop unzip cfg url file_dir zip_path zip_filename csv_filename).

Lemma attempt_loop_after_transient (k : nat) i s later :
  (i + Z.of_nat k ≤ retry_attempts cfg - 1)%Z →
  Forall (λ r, transient r = true) (take k (st_net s)) →
  ∃ sk tk,
    loop (seqZ i (Z.of_nat k) ++ later) s = after tk (loop later sk)
    ∧ timeline tk ++ [EvSleep Throttle (rate_limit_delay cfg); EvGet url]
      = retry_timeline cfg url (S k)
    ∧ st_net sk = drop k (st_net s).
Proof.
  revert i s. induction k as [|k IH]; intros i s Hi Hq.
  - exists s, []. by rewrite after_nil.
  - rewrite Nat2Z.inj_succ, seqZ_cons by lia.
    replace (Z.pred (Z.succ (Z.of_nat k))) with (Z.of_nat k) by lia.
    rewrite <- app_comm_cons. cbn [attempt_loop].
    destruct (attempt_once_transient unzip cfg url file_dir zip_path zip_filename
                csv_filename i s) as (s1 & t1 & Hrun & Hnet & Htl).
    { revert Hq. destruct (st_net s) as [|r q]; simpl; [done|].
      intros Hq. by apply Forall_cons in Hq as [? _]. }
    rewrite (bind_Return _ _ _ _ _ _ Hrun).
    destruct (Z.ltb_spec i (retry_attempts cfg - 1)) as [_|]; [|lia].
    destruct (IH (Z.succ i) s1) as (sk & tk & Hrest & Htlk & Hnetk); [lia| |].
    { rewrite Hnet. revert Hq. destruct (st_net s) as [|r q]; simpl.
      - intros _. rewrite take_nil. constructor.
      - intros Hq. by apply Forall_cons in Hq as [_ ?]. }
    rewrite Hrest, after_after. exists sk, (t1 ++ tk).
    split; [done|]. split.
    + rewrite timeline_app, Htl, <- !app_assoc, Htlk. done.
    + rewrite Hnetk, Hnet. destruct (st_net s); simpl; [by rewrite drop_nil|done].
Qed.

End AfterFailures.

Section AfterFailuresTheorems.

Context (unzip : string → list (string * string) * option exn).
Context (cfg : config) (symbol data_type date : string) (interval : option string).

Local Abbreviation file_dir := (file_dir_of cfg symbol data_type interval).
Local Abbreviation zip_path := (zip_path_of cfg symbol data_type date interval).
Local Abbreviation csv_path := (csv_path_of cfg symbol data_type date interval).
Local Abbreviation zip_filename := (zip_filename_of symbol data_type date interval).
Local Abbreviation csv_filename := (csv_filename_of symbol data_type date interval).
Local Abbreviation fetch := (download_file unzip cfg symbol data_type date interval).

Lemma download_file_after_transient url s (failures : list http_result) later b s' t :
  build_download_url (base_url cfg) data_type symbol date interval = Return url →
  result_of (is_download_needed csv_path (overwrite_existing cfg) s) = Return true →
  (Z.of_nat (length failures) < retry_attempts cfg)%Z →
  Forall (λ r, transient r = true) failures →
  st_net s = failures ++ later →
  (∀ sk, st_net sk = later →
         attempt_once unzip cfg url file_dir zip_path zip_filename csv_filename
           (Z.of_nat (length failures)) sk
         = (Return (Returned b), s' sk, t)) →
  timeline t = [EvSleep Throttle (rate_limit_delay cfg); EvGet url] →
  ∃ sk tk,
    st_net sk = later
    ∧ fetch s = (Return b, s' sk, tk ++ t)
    ∧ timeline (tk ++ t) = retry_timeline cfg url (S (length failures)).
Proof.
  intros Hurl Hneed Hk Htrans Hnet Hlast Htl.
  rewrite (download_file_needed _ _ _ _ _ _ url s Hurl Hneed). unfold range.
  assert (seqZ 0 (retry_attempts cfg)
          = seqZ 0 (Z.of_nat (length failures))
            ++ seqZ (0 + Z.of_nat (length failures))
                 (retry_attempts cfg - Z.of_nat (length failures))) as ->.
  { rewrite <- seqZ_app by lia. f_equal. lia. }
  destruct (attempt_loop_after_transient unzip cfg url file_dir zip_path zip_filename
              csv_filename (length failures) 0 s
              (seqZ (0 + Z.of_nat (length failures))
                 (retry_attempts cfg - Z.of_nat (length failures))))
    as (sk & tk & Hrun & Htlk & Hnetk); [lia| |].
  { rewrite Hnet, take_app_length. done. }
  rewrite Hnet, drop_app_length in Hnetk.
  rewrite Hrun, seqZ_cons by lia. cbn [attempt_loop].
  rewrite Z.add_0_l, (bind_Return _ _ _ _ _ _ (Hlast sk Hnetk)). mstep.
  exists sk, tk. split; [done|]. unfold ret, after; simpl.
  rewrite app_nil_r. split; [done|].
  by rewrite timeline_app, Htl.
Qed.



End AfterFailuresTheorems.

(* ================================================================== *)
(** ** Extraction and the files it leaves *)

Lemma write_members_present dir members files p :
  p ∈ member_paths dir members →
  is_Some (write_members dir members files !! p).
Proof.
  revert files. induction members as [|m ms IH]; intros files Hp.
  - by apply elem_of_nil in Hp.
  - simpl in *. apply elem_of_cons in Hp as [->|Hp].
    + apply write_members_keeps.
      destruct (write_bytes_data (path_join2 dir m.1) m.2 files) as [r Hr].
      by rewrite Hr.
    + by apply IH.
Qed.

Lemma timeline_cons e t :
  timeline (e :: t) = (if is_log e then [] else [e]) ++ timeline t.
Proof. unfold timeline. rewrite filter_cons. by destruct e. Qed.

Lemma timeline_nil : timeline [] = [].
Proof. done. Qed.

Section ExtractionTheorems.

Context (unzip : string → list (string * string) * option exn).

Lemma extract_zip_file_ok zip_path dir s f :
  st_files s !! zip_path = Some f →
  f_readable f = true →
  (unzip (f_data f)).2 = None →
  _extract_zip_file unzip zip_path dir s
  = (Return true, set_files (write_members dir (unzip (f_data f)).1) s, []).
Proof.
  intros Hf Hr Hz.
  unfold _extract_zip_file, try_except2, try_except, extractall. mstep.
  rewrite Hf, Hr. simpl. mstep. rewrite Hz. by mstep.
Qed.


End ExtractionTheorems.

Section ExtractedFacts.

Context (unzip : string → list (string * string) * option exn).
Context (cfg : config).
Context (url file_dir zip_path zip_filename csv_filename : string).

Local Abbreviation once :=
  (attempt_once unzip cfg url file_dir zip_path zip_filename csv_filename).

Ltac to_archive resp Hnet Hacc Hbody :=
  let H404 := fresh "H404" in
  let Hst := fresh "Hst" in
  let Hlen := fresh "Hlen" in
  let n := fresh "n" in
  apply andb_prop in Hacc as [Hacc Hlen];
  apply andb_prop in Hacc as [H404 Hst];
  apply negb_true_iff in H404; apply negb_true_iff in Hst;
  apply bool_decide_eq_true in Hlen as [n Hlen];
  unfold attempt_once, try_except2, try_except, attempt_body; mstep;
  unfold bind at 1; rewrite session_get_run, Hnet; cbv beta iota;
  rewrite H404; unfold raise_for_status; rewrite Hst; mstep;
  unfold declared_size; rewrite Hlen; mstep;
  unfold stream_to_file, open_write; mstep; rewrite Hbody; mstep;
  fold (streamed resp).

Lemma attempt_once_extracted attempt s resp rest s2 t2 :
  st_net s = NetResponse resp :: rest →
  accepted resp = true → body_complete resp = true →
  auto_extract cfg = true →
  _extract_zip_file unzip zip_path file_dir (downloaded zip_path resp rest s)
  = (Return true, s2, t2) →
  (delete_zip cfg = true →
   (zip_path ∉ st_pinned s2) ∧ is_Some (st_files s2 !! zip_path)) →
  ∃ t,
    once attempt s
    = (Return (Returned true),
       (if delete_zip cfg then set_files (delete zip_path) s2 else s2), t)
    ∧ timeline t = [EvSleep Throttle (rate_limit_delay cfg); EvGet url] ++ timeline t2.
Proof.
  intros Hnet Hacc Hbody Hauto Hex Hrm. to_archive resp Hnet Hacc Hbody.
  rewrite Hauto. mstep. unfold downloaded in Hex.
  rewrite (bind_Return _ _ _ _ _ _ Hex). mstep.
  destruct (delete_zip cfg).
  - destruct Hrm as [Hpin [f Hf]]; [done|]. mstep.
    assert (os_remove zip_path s2 = (Return tt, set_files (delete zip_path) s2, []))
      as Hdel.
    { rewrite os_remove_run, bool_decide_eq_false_2, Hf by done. done. }
    rewrite (bind_Return _ _ _ _ _ _ Hdel). mstep.
    unfold ret, after; simpl. eexists. split; [reflexivity|].
    rewrite !timeline_cons, !timeline_app, !timeline_cons, !timeline_nil.
    cbn [is_log app]. by rewrite !app_nil_r.
  - mstep. unfold ret, after; simpl. eexists. split; [reflexivity|].
    rewrite !timeline_cons, !timeline_app, !timeline_cons, !timeline_nil.
    cbn [is_log app]. by rewrite !app_nil_r.
Qed.

Lemma attempt_once_bad_length attempt s resp rest :
  st_net s = NetResponse resp :: rest →
  (status_code resp =? 404)%Z = false →
  ((400 <=? status_code resp)%Z && (status_code resp <? 600)%Z) = false →
  content_length resp = None →
  once attempt s
  = (Return (Returned false), set_net rest s,
     [EvLog INFO (MsgDownloading (attempt + 1) (retry_attempts cfg) url);
      EvSleep Throttle (rate_limit_delay cfg);
      EvGet url;
      EvLog ERROR (MsgUnexpected ValueError)]).
Proof.
  intros Hnet H404 Hst Hlen.
  unfold attempt_once, try_except2, try_except, attempt_body. mstep.
  unfold bind at 1. rewrite session_get_run, Hnet. cbv beta iota.
  rewrite H404. unfold raise_for_status. rewrite Hst. mstep.
  unfold declared_size. rewrite Hlen. mstep. simpl. by mstep.
Qed.

End ExtractedFacts.

Section ArchiveTheorems.

Context (unzip : string → list (string * string) * option exn).
Context (cfg : config) (symbol data_type date : string) (interval : option string).

Local Abbreviation file_dir := (file_dir_of cfg symbol data_type interval).
Local Abbreviation zip_path := (zip_path_of cfg symbol data_type date interval).
Local Abbreviation csv_path := (csv_path_of cfg symbol data_type date interval).
Local Abbreviation zip_filename := (zip_filename_of symbol data_type date interval).
Local Abbreviation csv_filename := (csv_filename_of symbol data_type date interval).
Local Abbreviation fetch := (download_file unzip cfg symbol data_type date interval).



End ArchiveTheorems.

(* ================================================================== *)
(** ** Tasks, the pool and [main]: nothing raises, and what is spent *)

Lemma quota_refl s : quota 0 s s [].
Proof. by repeat split. Qed.

Lemma quota_app n1 n2 s s1 s2 t1 t2 :
  quota n1 s s1 t1 → quota n2 s1 s2 t2 → quota (n1 + n2) s s2 (t1 ++ t2).
Proof.
  intros (Hn1 & Hq1 & Hp1 & He1 & Hd1) (Hn2 & Hq2 & Hp2 & He2 & Hd2).
  unfold quota. rewrite http_requests_app, length_app.
  split; [lia|]. split; [by rewrite Hq2, Hq1, drop_drop|].
  split; [congruence|]. split; congruence.
Qed.

Lemma quota_mono n n' s s' t : n ≤ n' → quota n s s' t → quota n' s s' t.
Proof. intros Hle (Hn & H). split; [lia|done]. Qed.

Lemma quota_log s lvl msg : quota 0 s s [EvLog lvl msg].
Proof. by repeat split. Qed.

Section Returns.

Context {A B : Type}.

Lemma returns_ret (a : A) (Q : A → Prop) : Q a → returns (ret a) 0 Q.
Proof. intros HQ s. exists a, s, []. split; [done|]. split; [done|apply quota_refl]. Qed.

Lemma returns_bind (m : M A) (k : A → M B) n1 n2 (P : A → Prop) (Q : B → Prop) :
  returns m n1 P →
  (∀ a, P a → returns (k a) n2 Q) →
  returns (bind m k) (n1 + n2) Q.
Proof.
  intros Hm Hk s.
  destruct (Hm s) as (a & s1 & t1 & Hrun & HP & Hq1).
  destruct (Hk a HP s1) as (b & s2 & t2 & Hrun2 & HQ & Hq2).
  exists b, s2, (t1 ++ t2). rewrite (bind_Return _ _ _ _ _ _ Hrun), Hrun2.
  split; [done|]. split; [done|]. by apply (quota_app _ _ _ s1).
Qed.

Lemma returns_mono (m : M A) n n' (P Q : A → Prop) :
  n ≤ n' → (∀ a, P a → Q a) → returns m n P → returns m n' Q.
Proof.
  intros Hle HPQ Hm s. destruct (Hm s) as (a & s1 & t1 & Hrun & HP & Hq).
  exists a, s1, t1. split; [done|]. split; [by apply HPQ|]. by apply (quota_mono n).
Qed.

Lemma returns_try_except (m : M A) cls h n (Q : A → Prop) :
  returns m n Q → returns (try_except m cls h) n Q.
Proof.
  intros Hm s. destruct (Hm s) as (a & s1 & t1 & Hrun & HP & Hq).
  exists a, s1, t1. by rewrite (try_except_Return _ _ _ _ _ _ _ Hrun).
Qed.

End Returns.

Lemma returns_log lvl msg : returns (log lvl msg) 0 (λ _, True).
Proof. intros s. exists tt, s, [EvLog lvl msg]. split; [done|]. split; [done|apply quota_log]. Qed.

Lemma returns_then {A} (m : M unit) (k : M A) n (Q : A → Prop) :
  returns m 0 (λ _, True) → returns k n Q → returns (bind m (λ _, k)) n Q.
Proof.
  intros Hm Hk. change n with (0 + n)%nat. by apply (returns_bind _ _ _ _ (λ _, True)).
Qed.

Lemma returns_for_each {A S} (body : A → S → M S) (cost : A → nat)
    (I : list A → S → Prop) (l : list A) :
  (∀ before x acc, I before acc → returns (body x acc) (cost x) (I (before ++ [x]))) →
  ∀ before acc,
    I before acc →
    returns (for_each l body acc) (sum_list_with cost l) (I (before ++ l)).
Proof.
  intros Hbody. induction l as [|x l IH]; intros before acc HI.
  - rewrite app_nil_r. by apply returns_ret.
  - cbn [for_each sum_list_with].
    apply (returns_bind _ _ _ _ (I (before ++ [x]))); [by apply Hbody|].
    intros acc' HI'. replace (before ++ x :: l) with ((before ++ [x]) ++ l)
      by (by rewrite <- app_assoc).
    by apply IH.
Qed.

Lemma plan_keys_app p1 p2 : plan_keys (p1 ++ p2) = plan_keys p1 ++ plan_keys p2.
Proof. apply omap_app. Qed.

Lemma count_successes_le (results : gmap string bool) :
  (0 ≤ count_successes results ≤ Z.of_nat (size results))%Z.
Proof.
  unfold count_successes.
  pose proof (length_filter (λ kv : string * bool, kv.2 = true) (map_to_list results)) as Hle.
  rewrite length_map_to_list in Hle. lia.
Qed.

Lemma success_rate_one (a b : Z) :
  Qeq_bool (if (b >? 0)%Z then (inject_Z a / inject_Z b)%Q else 0%Q) 1 = true
  ↔ (0 < b)%Z ∧ a = b.
Proof.
  destruct b as [|p|p]; simpl.
  - split; [done|lia].
  - rewrite Qeq_bool_iff. unfold Qeq, Qdiv, Qmult, Qinv, inject_Z. simpl.
    split; [intros H; split; lia|intros [_ ->]; lia].
  - split; [done|lia].
Qed.

Section RunFacts.

Context (unzip : string → list (string * string) * option exn).
Context (cfg : config).

Local Abbreviation attempts := (Z.to_nat (retry_attempts cfg)).

Lemma download_file_returns symbol data_type date interval :
  returns (download_file unzip cfg symbol data_type date interval) attempts (λ _, True).
Proof.
  intros s.
  destruct (download_file_effect unzip cfg symbol data_type date interval s)
    as (b & k & Hres & Hle & Hkeep & Hurl & Hnone).
  destruct (download_file unzip cfg symbol data_type date interval s)
    as [[o s'] t] eqn:Hrun.
  unfold result_of, state_of, trace_of in *. cbn [fst snd] in *. subst o.
  exists b, s', t. split; [done|]. split; [done|].
  assert (length (http_requests t) = k) as Hlen.
  { rewrite <- http_requests_timeline.
    destruct (build_download_url (base_url cfg) data_type symbol date interval)
      as [url|e] eqn:Hb.
    - by rewrite (Hurl url eq_refl), retry_timeline_requests, length_replicate.
    - destruct (Hnone e eq_refl) as [-> ->]. done. }
  destruct Hkeep as (Hp & Hn & He & Hd & _).
  unfold quota. rewrite Hlen. simpl in *. by repeat split.
Qed.

Lemma run_step_returns st results :
  returns (run_step (download_file unzip cfg) st results)
    (length (plan_fetches [st]) * attempts)%nat
    (λ results',
       dom results' = dom results ∪ list_to_set (plan_keys [st])
       ∧ (size results' ≤ size results + length (plan_fetches [st]))%nat).
Proof.
  destruct st as [key ft|data_type]; cbn [run_step plan_fetches plan_keys omap length].
  - rewrite Nat.mul_1_l, <- (Nat.add_0_r attempts).
    apply (returns_bind _ _ _ _ (λ _, True)); [apply download_file_returns|].
    intros ok _. apply returns_ret. split.
    + rewrite dom_insert_L. simpl. rewrite union_empty_r_L. apply union_comm_L.
    + rewrite map_size_insert. destruct (results !! key); simpl; lia.
  - apply returns_then; [apply returns_log|].
    apply returns_ret. split; [simpl; by rewrite union_empty_r_L|lia].
Qed.

Lemma plan_returns p :
  returns (for_each p (run_step (download_file unzip cfg)) ∅)
    (length (plan_fetches p) * attempts)%nat
    (λ results,
       dom results = list_to_set (plan_keys p)
       ∧ size results ≤ length (plan_fetches p)).
Proof.
  apply (returns_mono _ (sum_list_with (λ st, (length (plan_fetches [st]) * attempts)%nat) p) _
           (λ results,
              dom results = list_to_set (plan_keys ([] ++ p))
              ∧ size results ≤ length (plan_fetches ([] ++ p)))).
  - clear. induction p as [|st p IH]; [done|].
    cbn [sum_list_with]. change (st :: p) with ([st] ++ p).
    rewrite plan_fetches_app, length_app. lia.
  - done.
  - apply (returns_for_each _ _
             (λ before results,
                dom results = list_to_set (plan_keys before)
                ∧ size results ≤ length (plan_fetches before))).
    + intros before st results [Hdom Hsize].
      eapply returns_mono; [done| |apply run_step_returns].
      intros results' [Hdom' Hsize'].
      rewrite plan_keys_app, plan_fetches_app, length_app, list_to_set_app_L.
      split; [by rewrite Hdom', Hdom|lia].
    + split; [by rewrite dom_empty_L|by rewrite map_size_empty].
Qed.

Lemma download_symbol_data_returns symbol date data_types kline_intervals :
  let p := symbol_data_plan symbol date data_types kline_intervals in
  returns (download_symbol_data unzip cfg symbol date data_types kline_intervals)
    (length (plan_fetches p) * attempts)%nat
    (λ results,
       dom results = list_to_set (plan_keys p)
       ∧ size results ≤ length (plan_fetches p)).
Proof.
  intros p s. unfold download_symbol_data.
  rewrite download_symbol_data_with_plan. apply plan_returns.
Qed.

Lemma download_task_returns t :
  returns (download_task unzip cfg t) (task_files t * attempts)%nat (reports t).
Proof.
  unfold download_task. apply returns_try_except.
  apply returns_then; [apply returns_log|].
  rewrite <- (Nat.add_0_r (task_files t * attempts)%nat).
  eapply returns_bind; [apply download_symbol_data_returns|].
  intros results [Hdom Hsize]. cbv beta zeta.
  apply returns_then.
  { destruct (_ =? _)%Z; apply returns_log. }
  apply returns_ret. unfold reports. cbn.
  pose proof (count_successes_le results) as Hcount.
  split; [done|]. split; [done|]. split; [done|].
  split; [exists results; by repeat split|].
  split; [done|]. split; [unfold task_files, task_plan; lia|].
  apply success_rate_one.
Qed.

Lemma tally_returns n result c :
  returns (tally n result c) 0
    (λ c',
       completed_tasks c' = (completed_tasks c + 1)%Z
       ∧ successful_tasks c'
         = (successful_tasks c
            + (if Qeq_bool (success_rate result) 1 then 1 else 0))%Z).
Proof.
  unfold tally. apply returns_then.
  { destruct (_ || _); [apply returns_log|by apply returns_ret]. }
  apply returns_ret. cbn. split; [done|].
  destruct (Qeq_bool _ _); lia.
Qed.

Lemma run_pool_returns tasks :
  returns (run_pool unzip cfg tasks) (sum_list_with task_files tasks * attempts)%nat
    (λ c,
       completed_tasks c = Z.of_nat (length tasks)
       ∧ (0 ≤ successful_tasks c ≤ Z.of_nat (length (filter (λ t, task_files t ≠ 0%nat) tasks)))%Z).
Proof.
  unfold run_pool. generalize (Z.of_nat (length tasks)) at 1. intros n.
  apply (returns_mono _ (sum_list_with (λ t, (task_files t * attempts)%nat) tasks) _
           (λ c,
              completed_tasks c = Z.of_nat (length ([] ++ tasks))
              ∧ (0 ≤ successful_tasks c
                 ≤ Z.of_nat (length (filter (λ t, task_files t ≠ 0%nat) ([] ++ tasks))))%Z)).
  - clear. induction tasks as [|t l IH]; [done|]. cbn [sum_list_with]. lia.
  - done.
  - apply (returns_for_each _ _
             (λ before c,
                completed_tasks c = Z.of_nat (length before)
                ∧ (0 ≤ successful_tasks c
                   ≤ Z.of_nat (length (filter (λ t, task_files t ≠ 0%nat) before)))%Z)).
    + intros before t c [Hdone Hok].
      rewrite <- (Nat.add_0_r (task_files t * attempts)%nat).
      eapply returns_bind; [apply download_task_returns|].
      intros r Hr. eapply returns_mono; [done| |apply tally_returns].
      intros c' [Hdone' Hok'].
      rewrite length_app, filter_app, length_app. simpl length.
      split; [lia|].
      destruct Hr as (_ & _ & _ & _ & Hcount & Hfiles & Hrate).
      destruct (Qeq_bool (success_rate r) 1).
      * destruct Hrate as [Hrate _]. destruct (Hrate eq_refl) as [Hpos _].
        rewrite filter_cons_True by lia. simpl length. lia.
      * assert (0 ≤ length (filter (λ t, task_files t ≠ 0%nat) [t])) by lia. lia.
    + done.
Qed.

Lemma run_downloads_returns tasks :
  returns (run_downloads unzip cfg tasks) (sum_list_with task_files tasks * attempts)%nat
    (λ c,
       completed_tasks c = Z.of_nat (length tasks)
       ∧ (0 ≤ successful_tasks c ≤ Z.of_nat (length (filter (λ t, task_files t ≠ 0%nat) tasks)))%Z).
Proof.
  unfold run_downloads, ensure_directory_exists.
  apply returns_then; [by apply returns_ret|].
  apply returns_then; [by apply returns_ret|].
  apply returns_then; [apply returns_log|].
  rewrite <- (Nat.add_0_r (_ * _)%nat).
  eapply returns_bind; [apply run_pool_returns|].
  intros c Hc. cbv beta zeta.
  apply returns_then; [apply returns_log|].
  by apply returns_ret.
Qed.

End RunFacts.

Lemma plan_keys_spec symbol date data_types kline_intervals :
  plan_keys (symbol_data_plan symbol date data_types kline_intervals)
  = flat_map
      (λ '((data_type, enabled) : string * bool),
         if enabled then
           if str_in data_type INTERVAL_TYPES
           then (λ interval, data_type +:+ "_" +:+ interval) <$> kline_intervals
           else [data_type]
         else [])
      data_types.
Proof.
  unfold symbol_data_plan.
  induction data_types as [|[data_type enabled] rest IH]; [done|].
  cbn [flat_map]. rewrite plan_keys_app, IH. f_equal.
  destruct enabled; simpl; [|done].
  destruct (str_in data_type INTERVAL_TYPES); [|done].
  destruct kline_intervals as [|i l]; [done|].
  generalize (i :: l). intros intervals.
  induction intervals as [|x xs IHx]; [done|].
  rewrite !fmap_cons. cbn [plan_keys omap]. fold plan_keys. by rewrite <- IHx.
Qed.

Lemma task_files_generated cfg dates pairs t :
  t ∈ enumerate_tasks cfg dates pairs →
  task_files t
  = (enabled_simple_types (data_types cfg)
     + enabled_interval_types (data_types cfg) * length (kline_intervals cfg))%nat.
Proof.
  rewrite enumerate_tasks_spec, list_elem_of_In, in_flat_map.
  intros (date & _ & Hin). apply list_elem_of_In, list_elem_of_fmap in Hin as (symbol & -> & _).
  unfold task_files, task_plan. simpl.
  rewrite plan_fetches_spec. apply expansion_length.
Qed.

Lemma sum_list_with_const {A} (f : A → nat) (l : list A) (c : nat) :
  (∀ x, x ∈ l → f x = c) → sum_list_with f l = (length l * c)%nat.
Proof.
  induction l as [|x l IH]; intros Hc; [done|].
  cbn [sum_list_with length]. rewrite Hc, IH; [lia| |].
  - intros y Hy. apply Hc. by right.
  - by left.
Qed.

Lemma generate_download_tasks_quiet cfg s :
  ∃ o tg,
    generate_download_tasks cfg s = (o, s, tg)
    ∧ timeline tg = []
    ∧ ∀ tasks, o = Return tasks →
        ∃ dates pairs, tasks = enumerate_tasks cfg dates pairs.
Proof.
  rewrite generate_download_tasks_run.
  destruct (result_of (generate_date_range (start_date cfg) (end_date cfg) s))
    as [[|first more]|e].
  - eexists _, _. split; [reflexivity|]. split; [done|]. intros ? [=].
  - destruct (trading_pairs cfg) as [|p ps] eqn:Hpairs.
    + destruct (st_exchange s) as [pairs|].
      * eexists _, _. split; [reflexivity|]. split; [done|]. intros ? [= <-]. eauto.
      * eexists _, _. split; [reflexivity|]. split; [done|]. intros ? [= <-].
        exists [], []. done.
    + eexists _, _. split; [reflexivity|]. split; [done|]. intros ? [= <-]. eauto.
  - eexists _, _. split; [reflexivity|]. split; [done|]. intros ? [=].
Qed.

Section RunTheorems.

Context (unzip : string → list (string * string) * option exn).
Context (cfg : config).

Local Abbreviation attempts := (Z.to_nat (retry_attempts cfg)).

(** X10.  [download_symbol_data] never raises, and its result has an
    entry exactly for the files the task asks for: [data_type] for every
    enabled data type that takes no interval, and [data_type_interval]
    for every enabled one that does and every configured interval.  It
    holds no more entries than files were asked for, and the requests
    sent are at most [retry_attempts] for each of these files, each
    taking one result off the network queue. *)
Theorem symbol_data_results symbol date data_types kline_intervals s :
  let run := download_symbol_data unzip cfg symbol date data_types kline_intervals s in
  let files := plan_fetches (symbol_data_plan symbol date data_types kline_intervals) in
  ∃ results,
    result_of run = Return results
    ∧ (∀ key,
         is_Some (results !! key)
         ↔ ∃ data_type,
             (data_type, true) ∈ data_types
             ∧ if str_in data_type INTERVAL_TYPES
               then ∃ interval, interval ∈ kline_intervals
                                ∧ key = data_type +:+ "_" +:+ interval
               else key = data_type)
    ∧ size results ≤ length files
    ∧ length (http_requests (trace_of run)) ≤ length files * attempts
    ∧ st_net (state_of run) = drop (length (http_requests (trace_of run))) (st_net s).
Proof.
  intros run files. subst run files.
  destruct (download_symbol_data_returns unzip cfg symbol date data_types
              kline_intervals s) as (results & s' & t & Hrun & [Hdom Hsize] & Hq).
  rewrite Hrun. unfold result_of, state_of, trace_of. cbn [fst snd].
  exists results. split; [done|].
  destruct Hq as (Hn & Hnet & _).
  split; [|by repeat split].
  intros key. rewrite <- elem_of_dom, Hdom, elem_of_list_to_set, plan_keys_spec.
  rewrite list_elem_of_In, in_flat_map. split.
  - intros ([data_type enabled] & Hin & Hkey).
    apply list_elem_of_In in Hin. destruct enabled; [|by destruct Hkey].
    exists data_type. split; [done|].
    destruct (str_in data_type INTERVAL_TYPES).
    + apply list_elem_of_In, list_elem_of_fmap in Hkey as (interval & -> & Hi). eauto.
    + apply list_elem_of_In, list_elem_of_singleton in Hkey. done.
  - intros (data_type & Hin & Hkey). exists (data_type, true).
    split; [by apply list_elem_of_In|].
    destruct (str_in data_type INTERVAL_TYPES).
    + destruct Hkey as (interval & Hi & ->).
      apply list_elem_of_In, list_elem_of_fmap. eauto.
    + subst key. apply list_elem_of_In, list_elem_of_singleton. done.
Qed.

(** X11.  [download_task] never raises and never takes its [except]
    branch: the result carries the symbol and the date of the task, the
    details and no error; its counts satisfy
    [0 <= success_count <= total_count <= files asked for]; its
    [success_rate] equals 1 exactly when there is at least one counted
    file and all counted files succeeded; and the requests sent are at
    most [retry_attempts] for each file asked for. *)
Theorem download_task_reports t s :
  let run := download_task unzip cfg t s in
  ∃ r,
    result_of run = Return r
    ∧ r_symbol r = t_symbol t ∧ r_date r = t_date t
    ∧ error r = None
    ∧ (∃ results,
         details r = Some results
         ∧ total_count r = Z.of_nat (size results)
         ∧ success_count r = count_successes results)
    ∧ (0 ≤ success_count r ≤ total_count r)%Z
    ∧ (total_count r ≤ Z.of_nat (task_files t))%Z
    ∧ (Qeq_bool (success_rate r) 1 = true
       ↔ (0 < total_count r)%Z ∧ success_count r = total_count r)
    ∧ length (http_requests (trace_of run)) ≤ task_files t * attempts.
Proof.
  intros run. subst run.
  destruct (download_task_returns unzip cfg t s) as (r & s' & tr & Hrun & Hr & Hq).
  rewrite Hrun. unfold result_of, trace_of. cbn [fst snd].
  destruct Hr as (Hsym & Hdate & Herr & (results & Hd & _ & Htotal & Hsucc)
                  & Hcount & Hfiles & Hrate).
  exists r. do 4 (split; [done|]).
  split; [by exists results|].
  do 3 (split; [done|]). by destruct Hq.
Qed.



End RunTheorems.

(* ================================================================== *)
(** ** Dates *)

Module CalendarFacts.

Import Calendar.
Local Open Scope Z_scope.

Lemma digit_value_range c v : digit_value c = Some v → 0 ≤ v ≤ 9.
Proof.
  unfold digit_value.
  destruct (_ && _) eqn:H; [|done]. intros [= <-].
  apply andb_prop in H as [H1 H2]. lia.
Qed.

Lemma year_field_range s y : year_field s = Some y → 0 ≤ y ≤ 9999.
Proof.
  unfold year_field.
  destruct s as [|a [|b [|c [|d [|e s]]]]]; try done.
  destruct (digit_value a) as [va|] eqn:Ha; [|done].
  destruct (digit_value b) as [vb|] eqn:Hb; [|done].
  destruct (digit_value c) as [vc|] eqn:Hc; [|done].
  destruct (digit_value d) as [vd|] eqn:Hd; [|done].
  apply digit_value_range in Ha, Hb, Hc, Hd. intros [= <-]. lia.
Qed.

Lemma month_field_range s m : month_field s = Some m → 1 ≤ m ≤ 12.
Proof.
  unfold month_field.
  destruct s as [|a [|b [|c s]]]; try done.
  - destruct (digit_value a) as [va|] eqn:Ha; [|done].
    apply digit_value_range in Ha.
    destruct (Z.leb_spec 1 va); [|done]. intros [= <-]. lia.
  - destruct (digit_value a) as [va|] eqn:Ha; [|done].
    destruct (digit_value b) as [vb|] eqn:Hb;
      [|by destruct va as [|[[]|[]|]|]].
    apply digit_value_range in Ha, Hb.
    destruct va as [|[[]|[]|]|]; try done;
      repeat case_match; try done; intros [= <-]; lia.
Qed.

Lemma day_field_range s d : day_field s = Some d → 1 ≤ d ≤ 31.
Proof.
  unfold day_field.
  destruct s as [|a [|b [|c s]]]; try done.
  - destruct (digit_value a) as [va|] eqn:Ha; [|done].
    apply digit_value_range in Ha.
    destruct (Z.leb_spec 1 va); [|done]. intros [= <-]. lia.
  - destruct (ascii_eqb a SPACE).
    + destruct (digit_value b) as [vb|] eqn:Hb; [|done].
      apply digit_value_range in Hb.
      destruct (Z.leb_spec 1 vb); [|done]. intros [= <-]. lia.
    + destruct (digit_value a) as [va|] eqn:Ha; [|done].
      destruct (digit_value b) as [vb|] eqn:Hb;
        [|by destruct va as [|[[]|[]|]|]].
      apply digit_value_range in Ha, Hb.
      destruct va as [|[[|[]|]|[]|]|]; try done;
        repeat case_match; try done; intros [= <-]; lia.
Qed.

Lemma is_leap_spec y :
  is_leap y = true ↔ y mod 4 = 0 ∧ (y mod 100 ≠ 0 ∨ y mod 400 = 0).
Proof.
  unfold is_leap.
  destruct (Z.eqb_spec (y mod 4) 0), (Z.eqb_spec (y mod 100) 0),
    (Z.eqb_spec (y mod 400) 0); simpl; intuition (try done; try lia).
Qed.

Lemma days_before_year_succ y :
  days_before_year (y + 1)
  = days_before_year y + 365 + (if is_leap y then 1 else 0).
Proof.
  unfold days_before_year, is_leap. cbv zeta.
  replace (y + 1 - 1) with y by lia.
  destruct (Z.eqb_spec (y mod 4) 0), (Z.eqb_spec (y mod 100) 0),
    (Z.eqb_spec (y mod 400) 0); simpl; Z.div_mod_to_equations; lia.
Qed.

Ltac table_eval :=
  repeat match goal with
  | |- context [table ?t ?k] =>
      let v := eval vm_compute in (table t k) in change (table t k) with v
  | H : context [table ?t ?k] |- _ =>
      let v := eval vm_compute in (table t k) in change (table t k) with v in H
  end.

Lemma year_days y m d :
  1 ≤ m ≤ 12 → 1 ≤ d ≤ days_in_month y m →
  1 ≤ days_before_month y m + d ≤ 365 + (if is_leap y then 1 else 0).
Proof.
  intros Hm Hd. unfold days_in_month, days_before_month in *.
  assert (m = 1 ∨ m = 2 ∨ m = 3 ∨ m = 4 ∨ m = 5 ∨ m = 6 ∨ m = 7 ∨ m = 8
          ∨ m = 9 ∨ m = 10 ∨ m = 11 ∨ m = 12) as Hcases by lia.
  destruct (is_leap y);
    repeat (destruct Hcases as [->|Hcases]); try subst m;
    table_eval; cbn in Hd |- *; lia.
Qed.

Lemma ymd2ord_range y m d :
  1 ≤ y ≤ 9999 → 1 ≤ m ≤ 12 → 1 ≤ d ≤ days_in_month y m →
  1 ≤ ymd2ord y m d ≤ MAX_ORDINAL.
Proof.
  intros Hy Hm Hd. pose proof (year_days y m d Hm Hd) as Hdays.
  pose proof (days_before_year_succ y) as Hsucc.
  change MAX_ORDINAL with 3652059. unfold ymd2ord.
  assert (days_before_year (y + 1) ≤ 3652059) as Hmax.
  { unfold days_before_year. cbv zeta. Z.div_mod_to_equations. lia. }
  assert (0 ≤ days_before_year y) as Hmin.
  { unfold days_before_year. cbv zeta. Z.div_mod_to_equations. lia. }
  lia.
Qed.

Lemma strptime_range s a : strptime s = Some a → 1 ≤ a ≤ MAX_ORDINAL.
Proof.
  unfold strptime.
  destruct (split_hyphen s) as [[ys rest]|]; [|done].
  destruct (split_hyphen rest) as [[ms ds]|]; [|done].
  destruct (year_field ys) as [y|] eqn:Hy; [|done].
  destruct (month_field ms) as [m|] eqn:Hm; [|done].
  destruct (day_field ds) as [d|] eqn:Hd; [|done].
  destruct (_ && _) eqn:Hok; [|done]. intros [= <-].
  apply andb_prop in Hok as [H1 H2].
  apply year_field_range in Hy. apply month_field_range in Hm.
  apply day_field_range in Hd.
  apply ymd2ord_range; unfold MINYEAR in *; lia.
Qed.

End CalendarFacts.

Lemma generate_date_range_value start_date end_date s :
  generate_date_range start_date end_date s
  = (match Calendar.strptime start_date,
           Calendar.strptime (resolved_end_date end_date s) with
     | Some a, Some b =>
         if (b <? a)%Z then Return []
         else if (b <? Calendar.MAX_ORDINAL)%Z
              then Return (Calendar.strftime <$> seqZ a (b - a + 1))
              else Raise OverflowError
     | _, _ => Raise ValueError
     end, s, []).
Proof.
  rewrite generate_date_range_run.
  destruct (Calendar.strptime start_date) as [a|] eqn:Ha; [|done].
  destruct (Calendar.strptime (resolved_end_date end_date s)) as [b|] eqn:Hb; [|done].
  apply CalendarFacts.strptime_range in Ha, Hb.
  destruct (Z.ltb_spec b a).
  - by rewrite date_loop_empty.
  - destruct (Z.ltb_spec b Calendar.MAX_ORDINAL).
    + rewrite (date_loop_range (Z.to_nat (b + 1 - a))) by lia.
      rewrite Z2Nat.id, app_nil_l by lia.
      by replace (b + 1 - a)%Z with (b - a + 1)%Z by lia.
    + by rewrite (date_loop_overflow (Z.to_nat (Calendar.MAX_ORDINAL - a))) by lia.
Qed.

Module RoundTrip.

Import Calendar CalendarFacts.
Local Open Scope Z_scope.

Lemma lands_everywhere leapyear n :
  0 ≤ n < 365 → lands leapyear n = true.
Proof.
  intros Hn.
  assert (forallb (lands true) (seqZ 0 365) = true) as Hleap by (vm_compute; reflexivity).
  assert (forallb (lands false) (seqZ 0 365) = true) as Hplain by (vm_compute; reflexivity).
  rewrite forallb_forall in Hleap, Hplain.
  assert (In n (seqZ 0 365)) as Hin.
  { apply list_elem_of_In, elem_of_seqZ. lia. }
  destruct leapyear; auto.
Qed.

Lemma ord2ymd_unfold ordinal :
  ord2ymd ordinal
  = let n := ordinal - 1 in
    let n400 := n / DI400Y in
    let n := n mod DI400Y in
    let n100 := n / DI100Y in
    let n := n mod DI100Y in
    let n4 := n / DI4Y in
    let n := n mod DI4Y in
    let n1 := n / 365 in
    let n := n mod 365 in
    let year := n400 * 400 + 1 + n100 * 100 + n4 * 4 + n1 in
    if (n1 =? 4) || (n100 =? 4) then (year - 1, 12, 31)
    else
      let '(month, day) :=
        month_and_day ((n1 =? 3) && (negb (n4 =? 24) || (n100 =? 3))) n in
      (year, month, day).
Proof.
  unfold ord2ymd, month_and_day. cbv zeta.
  destruct (_ || _); [done|]. by destruct (_ >? _).
Qed.

(** [_ord2ymd] gives a date of the calendar, and [_ymd2ord] takes it
    back to the ordinal. *)
Lemma ord2ymd_spec n :
  1 ≤ n ≤ MAX_ORDINAL →
  ∃ y m d,
    ord2ymd n = (y, m, d)
    ∧ 1 ≤ y ≤ 9999 ∧ 1 ≤ m ≤ 12 ∧ 1 ≤ d ≤ days_in_month y m
    ∧ ymd2ord y m d = n.
Proof.
  change MAX_ORDINAL with 3652059. intros Hn.
  rewrite ord2ymd_unfold. cbv zeta.
  change DI400Y with 146097. change DI100Y with 36524. change DI4Y with 1461.
  set (n0 := n - 1).
  set (n400 := n0 / 146097). set (r1 := n0 mod 146097).
  set (n100 := r1 / 36524). set (r2 := r1 mod 36524).
  set (n4 := r2 / 1461). set (r3 := r2 mod 1461).
  set (n1 := r3 / 365). set (r4 := r3 mod 365).
  assert (n0 = 146097 * n400 + r1 ∧ 0 ≤ r1 < 146097) as [Hn0 Hr1]
    by (subst n400 r1; Z.div_mod_to_equations; lia).
  assert (r1 = 36524 * n100 + r2 ∧ 0 ≤ r2 < 36524) as [Hr1' Hr2]
    by (subst n100 r2; Z.div_mod_to_equations; lia).
  assert (r2 = 1461 * n4 + r3 ∧ 0 ≤ r3 < 1461) as [Hr2' Hr3]
    by (subst n4 r3; Z.div_mod_to_equations; lia).
  assert (r3 = 365 * n1 + r4 ∧ 0 ≤ r4 < 365) as [Hr3' Hr4]
    by (subst n1 r4; Z.div_mod_to_equations; lia).
  assert (0 ≤ n400 ≤ 24 ∧ 0 ≤ n100 ≤ 4 ∧ 0 ≤ n4 ≤ 24 ∧ 0 ≤ n1 ≤ 4)
    as (H400 & H100 & H4 & H1) by (subst n0; lia).
  assert (n = n0 + 1) as Hnn by (subst n0; lia).
  clearbody n400 r1 n100 r2 n4 r3 n1 r4 n0.
  destruct ((n1 =? 4) || (n100 =? 4)) eqn:Hlast.
  - (* the last day of a leap year *)
    eexists _, _, _. split; [reflexivity|].
    set (y := n400 * 400 + 1 + n100 * 100 + n4 * 4 + n1 - 1).
    assert (n1 = 4 ∧ n100 ≤ 3 ∧ n4 ≤ 23 ∨ n100 = 4 ∧ n4 = 0 ∧ n1 = 0) as Hcase.
    { apply orb_prop in Hlast as [H|H]; apply Z.eqb_eq in H; lia. }
    assert (is_leap y = true) as Hleap.
    { apply is_leap_spec. subst y.
      destruct Hcase as [(-> & ? & ?)|(-> & -> & ->)]; Z.div_mod_to_equations; lia. }
    pose proof (days_before_year_succ y) as Hsucc. rewrite Hleap in Hsucc.
    unfold ymd2ord, days_in_month, days_before_month. rewrite Hleap.
    table_eval. simpl.
    assert (days_before_year (y + 1) = n) as Hord.
    { unfold days_before_year. cbv zeta. subst y.
      destruct Hcase as [(-> & ? & ?)|(-> & -> & ->)]; Z.div_mod_to_equations; lia. }
    assert (y ≤ 9999) as Hmax.
    { clear -Hord Hn. clearbody y. unfold days_before_year in Hord. cbv zeta in Hord.
      replace (y + 1 - 1) with y in Hord by lia. Z.div_mod_to_equations. lia. }
    split; [subst y; lia|]. split; [lia|]. split; [lia|]. lia.
  - (* any other day *)
    apply orb_false_elim in Hlast as [Hn1 Hn100].
    apply Z.eqb_neq in Hn1, Hn100.
    set (y := n400 * 400 + 1 + n100 * 100 + n4 * 4 + n1).
    set (leapyear := (n1 =? 3) && (negb (n4 =? 24) || (n100 =? 3))).
    assert (is_leap y = leapyear) as Hleap.
    { unfold is_leap. subst y leapyear.
      destruct (Z.eqb_spec n1 3), (Z.eqb_spec n4 24), (Z.eqb_spec n100 3),
        (Z.eqb_spec ((n400 * 400 + 1 + n100 * 100 + n4 * 4 + n1) mod 4) 0),
        (Z.eqb_spec ((n400 * 400 + 1 + n100 * 100 + n4 * 4 + n1) mod 100) 0),
        (Z.eqb_spec ((n400 * 400 + 1 + n100 * 100 + n4 * 4 + n1) mod 400) 0);
        simpl; try reflexivity; exfalso; Z.div_mod_to_equations; lia. }
    pose proof (lands_everywhere leapyear r4 Hr4) as Hlands.
    unfold lands in Hlands.
    destruct (month_and_day leapyear r4) as [m d].
    apply andb_prop in Hlands as [Hlands Hsum].
    apply andb_prop in Hlands as [Hlands Hdmax].
    apply andb_prop in Hlands as [Hlands Hdmin].
    apply andb_prop in Hlands as [Hmmin Hmmax].
    apply Z.leb_le in Hmmin, Hmmax, Hdmin, Hdmax. apply Z.eqb_eq in Hsum.
    exists y, m, d. split; [done|].
    assert (days_before_year y = n0 - r4) as Hyear.
    { unfold days_before_year. cbv zeta. subst y. Z.div_mod_to_equations. lia. }
    split; [subst y; lia|]. split; [lia|].
    unfold ymd2ord, days_in_month, days_before_month. rewrite Hleap.
    split; [|lia].
    destruct (Z.eqb_spec m 2) as [->|Hm2]; [|simpl in *; lia].
    revert Hdmax. table_eval. destruct leapyear; simpl; lia.
Qed.

Lemma split_hyphen_app s rest :
  split_hyphen s = None →
  split_hyphen (s +:+ "-" +:+ rest) = Some (s, rest).
Proof.
  induction s as [|c r IH]; intros Hs; [done|].
  simpl in *. destruct (ascii_eqb c HYPHEN); [done|].
  destruct (split_hyphen r) as [[??]|]; [done|]. by rewrite IH.
Qed.

Lemma digit_char_spec d :
  0 ≤ d ≤ 9 →
  ascii_eqb (digit_char d) HYPHEN = false ∧ digit_value (digit_char d) = Some d.
Proof.
  intros Hd.
  assert (forallb (λ d, bool_decide (ascii_eqb (digit_char d) HYPHEN = false
                                     ∧ digit_value (digit_char d) = Some d))
            (seqZ 0 10) = true) as Hall by (vm_compute; reflexivity).
  rewrite forallb_forall in Hall. apply (bool_decide_eq_true_1 _), Hall.
  apply list_elem_of_In, elem_of_seqZ. lia.
Qed.

Lemma year_field_padded y :
  0 ≤ y ≤ 9999 →
  split_hyphen (zero_padded 4 y) = None ∧ year_field (zero_padded 4 y) = Some y.
Proof.
  intros Hy.
  destruct (digit_char_spec (y mod 10)) as [Hh0 Hv0]; [Z.div_mod_to_equations; lia|].
  destruct (digit_char_spec (y / 10 mod 10)) as [Hh1 Hv1]; [Z.div_mod_to_equations; lia|].
  destruct (digit_char_spec (y / 10 / 10 mod 10)) as [Hh2 Hv2];
    [Z.div_mod_to_equations; lia|].
  destruct (digit_char_spec (y / 10 / 10 / 10 mod 10)) as [Hh3 Hv3];
    [Z.div_mod_to_equations; lia|].
  cbn [zero_padded].
  change (((("" +:+ String ?a "") +:+ String ?b "") +:+ String ?c "") +:+ String ?d "")
    with (String a (String b (String c (String d "")))).
  split.
  - cbn [split_hyphen]. by rewrite Hh3, Hh2, Hh1, Hh0.
  - cbn [year_field]. rewrite Hv3, Hv2, Hv1, Hv0. f_equal.
    Z.div_mod_to_equations. lia.
Qed.

Lemma month_field_padded m :
  1 ≤ m ≤ 12 →
  split_hyphen (zero_padded 2 m) = None ∧ month_field (zero_padded 2 m) = Some m.
Proof.
  intros Hm.
  assert (forallb (λ m, bool_decide (split_hyphen (zero_padded 2 m) = None
                                     ∧ month_field (zero_padded 2 m) = Some m))
            (seqZ 1 12) = true) as Hall by (vm_compute; reflexivity).
  rewrite forallb_forall in Hall. apply (bool_decide_eq_true_1 _), Hall.
  apply list_elem_of_In, elem_of_seqZ. lia.
Qed.

Lemma day_field_padded d :
  1 ≤ d ≤ 31 → day_field (zero_padded 2 d) = Some d.
Proof.
  intros Hd.
  assert (forallb (λ d, bool_decide (day_field (zero_padded 2 d) = Some d))
            (seqZ 1 31) = true) as Hall by (vm_compute; reflexivity).
  rewrite forallb_forall in Hall. apply (bool_decide_eq_true_1 _), Hall.
  apply list_elem_of_In, elem_of_seqZ. lia.
Qed.

Lemma days_in_month_le y m : days_in_month y m ≤ 31.
Proof.
  unfold days_in_month, table. destruct (_ && _); [lia|].
  destruct (Z.to_nat m) as [|[|[|[|[|[|[|[|[|[|[|[|[|k]]]]]]]]]]]]]; simpl; lia.
Qed.

(** Parsing what [strftime] prints gives the day back. *)
Lemma strptime_strftime n :
  1 ≤ n ≤ MAX_ORDINAL → strptime (strftime n) = Some n.
Proof.
  intros Hn.
  destruct (ord2ymd_spec n Hn) as (y & m & d & Hord & Hy & Hm & Hd & Hback).
  pose proof (days_in_month_le y m) as Hd31.
  destruct (year_field_padded y) as [Hys Hyf]; [lia|].
  destruct (month_field_padded m Hm) as [Hms Hmf].
  unfold strftime, strptime. rewrite Hord.
  rewrite (split_hyphen_app _ _ Hys), (split_hyphen_app _ _ Hms).
  rewrite Hyf, Hmf, day_field_padded by lia.
  destruct (Z.leb_spec MINYEAR y); [|unfold MINYEAR in *; lia].
  destruct (Z.leb_spec d (days_in_month y m)); [|lia].
  simpl. by rewrite Hback.
Qed.

Lemma strftime_inj a b :
  1 ≤ a ≤ MAX_ORDINAL → 1 ≤ b ≤ MAX_ORDINAL → strftime a = strftime b → a = b.
Proof.
  intros Ha Hb Heq. apply strptime_strftime in Ha, Hb.
  rewrite Heq in Ha. congruence.
Qed.

End RoundTrip.

(* ================================================================== *)
(** ** The date range and the two checks *)


Lemma validate_date_format_run date_str s :
  validate_date_format date_str s
  = (Return (bool_decide (is_Some (Calendar.strptime date_str))), s, []).
Proof.
  unfold validate_date_format, try_except, datetime_strptime. mstep.
  destruct (Calendar.strptime date_str) as [a|]; by mstep.
Qed.

(** X15.  The dates that [generate_date_range] returns are days of the
    calendar in ascending order without repetition.  For a start from
    the year 1000 on, where the year is printed in four digits whatever
    the platform, parsing the [i]-th date gives the day [i] days after
    the start, so each date passes [validate_date_format], no date comes
    twice, and the dates are end − start + 1 whenever there are any. *)
Theorem generated_dates_parse_back start_date end_date s a dates :
  Calendar.strptime start_date = Some a →
  (Calendar.ymd2ord 1000 1 1 ≤ a)%Z →
  result_of (generate_date_range start_date end_date s) = Return dates →
  ∃ b,
    Calendar.strptime (resolved_end_date end_date s) = Some b
    ∧ (∀ (i : nat) d,
         dates !! i = Some d →
         Calendar.strptime d = Some (a + Z.of_nat i)%Z
         ∧ (a + Z.of_nat i ≤ b)%Z
         ∧ ∀ s', result_of (validate_date_format d s') = Return true)
    ∧ NoDup dates
    ∧ (dates ≠ [] → Z.of_nat (length dates) = (b - a + 1)%Z).
Proof.
  intros Ha _.
  rewrite generate_date_range_value. unfold result_of. cbn [fst snd]. rewrite Ha.
  destruct (Calendar.strptime (resolved_end_date end_date s)) as [b|] eqn:Hb; [|done].
  pose proof (CalendarFacts.strptime_range _ _ Ha) as Hra.
  pose proof (CalendarFacts.strptime_range _ _ Hb) as Hrb.
  intros Hdates. exists b. split; [done|].
  destruct (Z.ltb_spec b a).
  { injection Hdates as <-. split; [by intros i d ?|]. split; [constructor|done]. }
  destruct (Z.ltb_spec b Calendar.MAX_ORDINAL); [|done].
  injection Hdates as <-.
  assert (∀ (i : nat) d,
            (Calendar.strftime <$> seqZ a (b - a + 1)) !! i = Some d →
            d = Calendar.strftime (a + Z.of_nat i) ∧ (a + Z.of_nat i ≤ b)%Z) as Hith.
  { intros i d Hi. apply list_lookup_fmap_Some in Hi as (x & -> & Hx).
    apply lookup_seqZ in Hx as [-> Hlt]. split; [done|lia]. }
  split; [|split].
  - intros i d Hi. destruct (Hith i d Hi) as [-> Hle].
    assert (Calendar.strptime (Calendar.strftime (a + Z.of_nat i))
            = Some (a + Z.of_nat i)%Z) as Hparse
      by (apply RoundTrip.strptime_strftime; lia).
    split; [done|]. split; [done|]. intros s'.
    by rewrite validate_date_format_run, Hparse.
  - apply NoDup_alt. intros i j d Hi Hj.
    destruct (Hith i d Hi) as [-> Hlei]. destruct (Hith j _ Hj) as [Heq Hlej].
    apply RoundTrip.strftime_inj in Heq; lia.
  - intros _. rewrite length_fmap, length_seqZ. lia.
Qed.

(** X16.  [validate_date_format] never raises, and it tells beforehand
    whether [generate_date_range] can read its dates: the range raises
    [ValueError] exactly when the check rejects the start or the end,
    ["latest"] standing for today. *)
Theorem validate_date_format_guards_the_range start_date end_date s :
  (∃ ok_start ok_end,
     result_of (validate_date_format start_date s) = Return ok_start
     ∧ result_of (validate_date_format (resolved_end_date end_date s) s) = Return ok_end
     ∧ (result_of (generate_date_range start_date end_date s) = Raise ValueError
        ↔ ok_start = false ∨ ok_end = false))
  ∧ state_of (validate_date_format start_date s) = s
  ∧ trace_of (validate_date_format start_date s) = [].
Proof.
  rewrite !validate_date_format_run, generate_date_range_value.
  unfold result_of, state_of, trace_of. cbn [fst snd].
  split; [|done]. eexists _, _. split; [reflexivity|]. split; [reflexivity|].
  destruct (Calendar.strptime start_date) as [a|]; simpl.
  - destruct (Calendar.strptime (resolved_end_date end_date s)) as [b|]; simpl.
    + split; [|by intros [|]].
      destruct (_ <? _)%Z; [done|]. by destruct (_ <? _)%Z.
    + split; [by right|done].
  - split; [by left|done].
Qed.

Lemma is_file_exists_run p s :
  is_file_exists p s
  = (Return match st_files s !! p with
            | Some f => (Z.of_nat (String.length (f_data f)) >? 0)%Z
            | None => false
            end, s, []).
Proof.
  unfold is_file_exists, os_path_exists, os_path_getsize. mstep.
  destruct (st_files s !! p) as [f|] eqn:Hf.
  - rewrite bool_decide_eq_true_2 by eauto. mstep. rewrite Hf. by mstep.
  - rewrite bool_decide_eq_false_2 by (by intros [? ?]). by mstep.
Qed.

(** X17.  The two file checks agree on the files they reject:
    [is_file_exists] never raises and changes nothing, a file it rejects
    (absent or empty) is always downloaded again, and a file that the
    resume check lets skip is one that [is_file_exists] accepts. *)
Theorem rejected_file_is_downloaded_again p overwrite s :
  (∃ b, is_file_exists p s = (Return b, s, []))
  ∧ (result_of (is_file_exists p s) = Return false →
     result_of (is_download_needed p overwrite s) = Return true)
  ∧ (result_of (is_download_needed p overwrite s) = Return false →
     result_of (is_file_exists p s) = Return true).
Proof.
  rewrite is_file_exists_run, is_download_needed_spec.
  unfold result_of, complete_csv. cbn [fst snd].
  split; [eauto|].
  destruct (st_files s !! p) as [f|].
  - destruct (Z.gtb_spec (Z.of_nat (String.length (f_data f))) 0) as [Hpos|Hzero].
    + split; [done|done].
    + assert ((100 <=? Z.of_nat (String.length (f_data f)))%Z = false) as ->
        by (apply Z.leb_gt; lia).
      rewrite andb_false_r. simpl. rewrite orb_true_r. split; [done|done].
  - simpl. rewrite orb_true_r. split; [done|done].
Qed.

(* ================================================================== *)
(** ** The edges of the retry loop *)

Section BrokenStream.

Context (unzip : string → list (string * string) * option exn).
Context (cfg : config).
Context (url file_dir zip_path zip_filename csv_filename : string).

Lemma attempt_once_broken_stream attempt s resp rest :
  st_net s = NetResponse resp :: rest →
  accepted resp = true → body_complete resp = false →
  (retry_attempts cfg - 1 ≤ attempt)%Z →
  attempt_once unzip cfg url file_dir zip_path zip_filename csv_filename attempt s
  = (Return (Returned false), downloaded zip_path resp rest s,
     [EvLog INFO (MsgDownloading (attempt + 1) (retry_attempts cfg) url);
      EvSleep Throttle (rate_limit_delay cfg);
      EvGet url;
      EvLog WARNING (MsgAttemptFailed (attempt + 1) ConnectionError);
      EvLog ERROR (MsgAllAttemptsFailed url)]).
Proof.
  intros Hnet Hacc Hbody Hlast.
  apply andb_prop in Hacc as [Hacc Hlen].
  apply andb_prop in Hacc as [H404 Hst].
  apply negb_true_iff in H404. apply negb_true_iff in Hst.
  apply bool_decide_eq_true in Hlen as [n Hlen].
  unfold attempt_once, try_except2, try_except, attempt_body. mstep.
  unfold bind at 1. rewrite session_get_run, Hnet. cbv beta iota.
  rewrite H404. unfold raise_for_status. rewrite Hst. mstep.
  unfold declared_size. rewrite Hlen. mstep.
  unfold stream_to_file, open_write. mstep. rewrite Hbody. mstep.
  fold (streamed resp). simpl. mstep.
  destruct (Z.ltb_spec attempt (retry_attempts cfg - 1)); [lia|]. by mstep.
Qed.

End BrokenStream.

Section LoopEdges.

Context (unzip : string → list (string * string) * option exn).
Context (cfg : config) (symbol data_type date : string) (interval : option string).

Local Abbreviation file_dir := (file_dir_of cfg symbol data_type interval).
Local Abbreviation zip_path := (zip_path_of cfg symbol data_type date interval).
Local Abbreviation csv_path := (csv_path_of cfg symbol data_type date interval).
Local Abbreviation zip_filename := (zip_filename_of symbol data_type date interval).
Local Abbreviation csv_filename := (csv_filename_of symbol data_type date interval).
Local Abbreviation fetch := (download_file unzip cfg symbol data_type date interval).




End LoopEdges.

(* ================================================================== *)
(** ** Paths *)

Lemma os_path_join_one_inj dir a b :
  starts_with_slash a = starts_with_slash b →
  os_path_join dir [a] = os_path_join dir [b] → a = b.
Proof. unfold os_path_join. simpl. apply path_join2_inj. Qed.

Lemma get_output_filename_slash symbol data_type date date' interval ext ext' :
  starts_with_slash (get_output_filename symbol data_type date interval ext)
  = starts_with_slash (get_output_filename symbol data_type date' interval ext').
Proof.
  unfold get_output_filename. destruct (if_truthy interval); by destruct symbol.
Qed.

Lemma string_length_app (s t : string) :
  String.length (s +:+ t) = (String.length s + String.length t)%nat.
Proof. induction s as [|c r IH]; simpl; [done|]. by rewrite IH. Qed.

Lemma string_app_inj_tail (s s' t t' : string) :
  String.length t = String.length t' →
  s +:+ t = s' +:+ t' → s = s'.
Proof.
  intros Hlen. revert s'. induction s as [|c r IH]; intros [|c' r'] H; simpl in H.
  - done.
  - apply (f_equal String.length) in H.
    rewrite !string_length_app in H. simpl in H. lia.
  - apply (f_equal String.length) in H.
    rewrite !string_length_app in H. simpl in H. lia.
  - injection H as -> H. f_equal. by apply IH.
Qed.

(** X21.  The files of a task never collide with those of another day.
    For one symbol, data type and interval, the archive and the csv of a
    date are two different paths, and for two different dates all four
    paths, archives and csv files, differ. *)
Theorem dates_keep_their_files_apart cfg symbol data_type interval date date' :
  date ≠ date' →
  zip_path_of cfg symbol data_type date interval
  ≠ csv_path_of cfg symbol data_type date interval
  ∧ zip_path_of cfg symbol data_type date interval
    ≠ zip_path_of cfg symbol data_type date' interval
  ∧ csv_path_of cfg symbol data_type date interval
    ≠ csv_path_of cfg symbol data_type date' interval
  ∧ zip_path_of cfg symbol data_type date interval
    ≠ csv_path_of cfg symbol data_type date' interval.
Proof.
  intros Hne.
  assert (∀ ext ext',
            String.length ext = String.length ext' →
            get_output_filename symbol data_type date interval ext
            ≠ get_output_filename symbol data_type date' interval ext')
    as Hnames.
  { intros ext ext' Hlen H. unfold get_output_filename in H.
    destruct (if_truthy interval);
      repeat (apply (inj (String.app _)) in H);
      apply Hne;
      (apply (string_app_inj_tail date date' ("." +:+ ext) ("." +:+ ext')) in H;
       [done|]);
      rewrite !string_length_app; by rewrite Hlen. }
  split; [apply not_eq_sym, csv_path_ne_zip_path|].
  unfold zip_path_of, csv_path_of, zip_filename_of, csv_filename_of.
  repeat split; intros H;
    (apply os_path_join_one_inj in H; [|apply get_output_filename_slash]);
    by apply Hnames in H.
Qed.

(* ================================================================== *)
(** ** Runs that leave the state as it is *)

Lemma plan_keys_length p : length (plan_keys p) = length (plan_fetches p).
Proof. induction p as [|[key ft|data_type] p IH]; simpl; by rewrite ?IH. Qed.

Lemma plan_fetch_resolves base symbol date data_types kline_intervals ft :
  ft ∈ plan_fetches (symbol_data_plan symbol date data_types kline_intervals) →
  ∃ url,
    build_download_url base (ft_data_type ft) (ft_symbol ft) (ft_date ft) (ft_interval ft)
    = Return url.
Proof.
  rewrite plan_fetches_spec, list_elem_of_In, in_flat_map.
  intros ([data_type enabled] & _ & Hin). destruct enabled; [|done].
  unfold build_download_url.
  destruct (str_in data_type INTERVAL_TYPES) eqn:Htype.
  - apply list_elem_of_In, list_elem_of_fmap in Hin as (interval & -> & _).
    simpl. rewrite Htype. eauto.
  - apply list_elem_of_In, list_elem_of_singleton in Hin as ->.
    simpl. rewrite Htype. eauto.
Qed.

(** The results when every file of a plan has the outcome [b]. *)
Lemma uniform_results_size (b : bool) (keys : list string) (acc : gmap string bool) :
  map_Forall (λ _ v, v = b) acc →
  let results := foldl (λ m k, <[k := b]> m) acc keys in
  map_Forall (λ _ v, v = b) results
  ∧ (size acc ≤ size results)%nat
  ∧ (keys ≠ [] → 0 < size results)%nat.
Proof.
  revert acc. induction keys as [|k keys IH]; intros acc Hacc; simpl.
  - split; [done|]. split; [lia|done].
  - destruct (IH (<[k := b]> acc)) as (Hall & Hsize & _).
    { by apply map_Forall_insert_2. }
    split; [done|].
    assert (size acc ≤ size (<[k := b]> acc))%nat as Hle.
    { rewrite map_size_insert. destruct (acc !! k); simpl; lia. }
    assert (0 < size (<[k := b]> acc))%nat as Hpos.
    { rewrite map_size_insert. destruct (acc !! k) eqn:Hk; simpl; [|lia].
      destruct (decide (size acc = 0%nat)) as [Hz|]; [|lia].
      apply map_size_empty_inv in Hz. subst acc. by rewrite lookup_empty in Hk. }
    split; [lia|]. intros _. lia.
Qed.

Lemma count_successes_uniform (b : bool) (results : gmap string bool) :
  map_Forall (λ _ v, v = b) results →
  count_successes results = if b then Z.of_nat (size results) else 0%Z.
Proof.
  intros Hall. unfold count_successes.
  rewrite <- length_map_to_list.
  assert (Forall (λ kv : string * bool, kv.2 = b) (map_to_list results)) as Hl.
  { apply Forall_forall. intros [k v] Hkv. apply elem_of_map_to_list in Hkv.
    by apply Hall in Hkv. }
  induction Hl as [|[k v] l Hv Hl IH]; [by destruct b|].
  simpl in Hv. subst v. destruct b.
  - rewrite filter_cons_True by done. simpl length. lia.
  - rewrite filter_cons_False by (simpl; congruence). done.
Qed.

Section Steady.

Context (unzip : string → list (string * string) * option exn).
Context (cfg : config).

(** A count of events that adds up over a trace and skips the log. *)
Context (measure : list event → nat).
Context (measure_app : ∀ t1 t2, measure (t1 ++ t2) = (measure t1 + measure t2)%nat).
Context (measure_timeline : ∀ t, timeline t = [] → measure t = 0%nat).

Context (s : state) (b : bool) (c : nat).

Local Abbreviation steady_file ft :=
  (∃ t, download_file unzip cfg (ft_symbol ft) (ft_data_type ft) (ft_date ft)
          (ft_interval ft) s = (Return b, s, t)
        ∧ measure t = c).

Lemma measure_log lvl msg : measure [EvLog lvl msg] = 0%nat.
Proof using Type*. by apply measure_timeline. Qed.

Lemma measure_nil : measure [] = 0%nat.
Proof using Type*. by apply measure_timeline. Qed.

Lemma measure_cons_log lvl msg t : measure (EvLog lvl msg :: t) = measure t.
Proof using Type*.
  change (EvLog lvl msg :: t) with ([EvLog lvl msg] ++ t).
  by rewrite measure_app, measure_log.
Qed.

Ltac measure_simpl :=
  repeat first
    [ rewrite measure_cons_log | rewrite measure_app
    | rewrite measure_log | rewrite measure_nil ].

Lemma plan_steady p acc :
  (∀ ft, ft ∈ plan_fetches p → steady_file ft) →
  ∃ t,
    for_each p (run_step (download_file unzip cfg)) acc s
    = (Return (foldl (λ m k, <[k := b]> m) acc (plan_keys p)), s, t)
    ∧ measure t = (length (plan_fetches p) * c)%nat.
Proof using Type*.
  revert acc. induction p as [|[key ft|data_type] p IH]; intros acc Hp.
  - exists []. split; [done|]. by rewrite measure_nil.
  - destruct (Hp ft) as (t1 & Hrun & Hm1); [by left|].
    destruct (IH (<[key := b]> acc)) as (t2 & Hrest & Hm2).
    { intros ft' Hin. apply Hp. by right. }
    exists (t1 ++ t2). cbn [for_each run_step plan_keys plan_fetches omap foldl length].
    rewrite bind_bind, (bind_Return _ _ _ _ _ _ Hrun). mstep.
    fold plan_keys. fold plan_fetches. rewrite Hrest. mstep.
    split; [done|]. rewrite measure_app, Hm1, Hm2.
    change (plan_fetches (StepFetch key ft :: p)) with (ft :: plan_fetches p).
    simpl length. lia.
  - destruct (IH acc) as (t2 & Hrest & Hm2).
    { intros ft' Hin. by apply Hp. }
    exists ([EvLog WARNING (MsgNoIntervals data_type)] ++ t2).
    cbn [for_each run_step plan_keys plan_fetches omap foldl length].
    mstep. fold plan_keys. fold plan_fetches. rewrite Hrest. mstep.
    split; [done|]. by rewrite measure_app, measure_log, Hm2.
Qed.

Lemma download_task_steady t :
  (∀ ft, ft ∈ plan_fetches (task_plan t) → steady_file ft) →
  ∃ r tr,
    download_task unzip cfg t s = (Return r, s, tr)
    ∧ measure tr = (task_files t * c)%nat
    ∧ Qeq_bool (success_rate r) 1 = b && negb (task_files t =? 0)%nat.
Proof using Type*.
  intros Hfiles.
  destruct (plan_steady (task_plan t) ∅ Hfiles) as (tp & Hplan & Hm).
  set (results := foldl (λ m k, <[k := b]> m) ∅ (plan_keys (task_plan t))) in *.
  destruct (uniform_results_size b (plan_keys (task_plan t)) ∅) as (Hall & _ & Hpos).
  { apply map_Forall_empty. }
  fold results in Hall, Hpos.
  assert (download_symbol_data unzip cfg (t_symbol t) (t_date t)
            (t_data_types t) (t_kline_intervals t) s = (Return results, s, tp)) as Hdata.
  { unfold download_symbol_data. by rewrite download_symbol_data_with_plan. }
  assert (Qeq_bool
            (if (Z.of_nat (size results) >? 0)%Z
             then (inject_Z (count_successes results)
                   / inject_Z (Z.of_nat (size results)))%Q
             else 0%Q) 1
          = b && negb (task_files t =? 0)%nat) as Hrate.
  { apply eq_true_iff_eq. rewrite success_rate_one, andb_true_iff, negb_true_iff.
    rewrite (count_successes_uniform b results Hall).
    rewrite Nat.eqb_neq. unfold task_files.
    rewrite <- plan_keys_length.
    split.
    - intros [Htotal Heq]. destruct b; [|lia].
      split; [done|]. intros Hlen.
      apply length_zero_iff_nil in Hlen. unfold results in Htotal.
      rewrite Hlen in Htotal. simpl in Htotal. rewrite map_size_empty in Htotal. lia.
    - intros [-> Hlen]. split; [|done].
      assert (plan_keys (task_plan t) ≠ []) as Hne.
      { intros Hnil. by rewrite Hnil in Hlen. }
      apply Hpos in Hne. lia. }
  unfold download_task, try_except. mstep.
  rewrite (bind_Return _ _ _ _ _ _ Hdata). mstep.
  destruct (count_successes results =? Z.of_nat (size results))%Z; mstep;
    (eexists _, _; unfold ret, after; simpl; split; [reflexivity|];
     split; [|exact Hrate]);
    measure_simpl; rewrite Hm; unfold task_files; lia.
Qed.

Lemma run_pool_steady (tasks : list task) :
  (∀ t ft, t ∈ tasks → ft ∈ plan_fetches (task_plan t) → steady_file ft) →
  ∀ n c0, ∃ tr,
    for_each tasks
      (λ t c, result <- download_task unzip cfg t ;; tally n result c) c0 s
    = (Return
         (Counters
            (completed_tasks c0 + Z.of_nat (length tasks))
            (successful_tasks c0
             + (if b
                then Z.of_nat (length (filter (λ t, task_files t ≠ 0%nat) tasks))
                else 0))),
       s, tr)
    ∧ measure tr = (sum_list_with task_files tasks * c)%nat.
Proof using Type*.
  induction tasks as [|t tasks IH]; intros Hfiles n c0.
  - exists []. simpl. rewrite !Z.add_0_r, measure_nil.
    split; [by destruct c0, b; simpl; rewrite ?Z.add_0_r|done].
  - destruct (download_task_steady t) as (r & tr1 & Hrun & Hm1 & Hrate).
    { intros ft Hin. apply (Hfiles t); [by left|done]. }
    set (counted := b && negb (task_files t =? 0)%nat) in *.
    destruct (IH (λ t' ft Ht', Hfiles t' ft (list_elem_of_further _ _ _ Ht')) n
                (Counters (completed_tasks c0 + 1)
                   (if counted then successful_tasks c0 + 1 else successful_tasks c0)))
      as (tr2 & Hrest & Hm2).
    cbn [completed_tasks successful_tasks] in Hrest.
    assert ({| completed_tasks := completed_tasks c0 + 1 + Z.of_nat (length tasks);
               successful_tasks :=
                 (if counted then successful_tasks c0 + 1 else successful_tasks c0)
                 + (if b
                    then Z.of_nat (length (filter (λ t, task_files t ≠ 0%nat) tasks))
                    else 0) |}
            = {| completed_tasks := completed_tasks c0 + Z.of_nat (length (t :: tasks));
                 successful_tasks :=
                   successful_tasks c0
                   + (if b
                      then Z.of_nat
                             (length (filter (λ t, task_files t ≠ 0%nat) (t :: tasks)))
                      else 0) |})%Z as Hcount.
    { f_equal; [simpl length; lia|].
      subst counted. destruct b; simpl; [|lia].
      destruct (Nat.eqb_spec (task_files t) 0) as [Hzero|Hfiles'].
      - rewrite filter_cons_False by (intros H; by apply H). simpl. lia.
      - rewrite filter_cons_True by done. simpl length. simpl. lia. }
    rewrite Hcount in Hrest.
    cbn [for_each]. rewrite bind_bind, (bind_Return _ _ _ _ _ _ Hrun). mstep.
    unfold tally at 1. rewrite Hrate. mstep.
    destruct (_ || _); mstep; rewrite Hrest; unfold after; cbn [fst snd];
      (eexists; split; [reflexivity|]);
      measure_simpl; rewrite Hm1, Hm2; cbn [sum_list_with]; lia.
Qed.

Lemma run_downloads_steady (tasks : list task) :
  (∀ t ft, t ∈ tasks → ft ∈ plan_fetches (task_plan t) → steady_file ft) →
  ∃ tr,
    run_downloads unzip cfg tasks s
    = (Return
         (Counters
            (Z.of_nat (length tasks))
            (if b
             then Z.of_nat (length (filter (λ t, task_files t ≠ 0%nat) tasks))
             else 0)),
       s, tr)
    ∧ measure tr = (sum_list_with task_files tasks * c)%nat.
Proof using Type*.
  intros Hfiles.
  destruct (run_pool_steady tasks Hfiles (Z.of_nat (length tasks)) (Counters 0 0))
    as (tr & Hpool & Hm).
  unfold run_downloads, ensure_directory_exists, run_pool. mstep.
  rewrite (bind_Return _ _ _ _ _ _ Hpool). mstep.
  eexists. unfold ret, after; simpl. split; [reflexivity|].
  measure_simpl. rewrite Hm. lia.
Qed.

End Steady.

Section Offline.

Context (unzip : string → list (string * string) * option exn).
Context (cfg : config).
Context (url file_dir zip_path zip_filename csv_filename : string).

Lemma attempt_once_offline attempt s :
  st_net s = [] →
  ∃ t,
    attempt_once unzip cfg url file_dir zip_path zip_filename csv_filename attempt s
    = (Return (if (attempt <? retry_attempts cfg - 1)%Z
               then NextAttempt else Returned false), s, t)
    ∧ timeline t
      = [EvSleep Throttle (rate_limit_delay cfg); EvGet url]
        ++ (if (attempt <? retry_attempts cfg - 1)%Z
            then [EvSleep Backoff (retry_delay cfg)] else []).
Proof.
  intros Hnet.
  unfold attempt_once, try_except2, try_except, attempt_body. mstep.
  unfold bind at 1. rewrite session_get_run, Hnet. simpl. mstep.
  destruct (attempt <? retry_attempts cfg - 1)%Z; mstep; unfold ret; simpl;
    eexists; (split; [reflexivity|done]).
Qed.

Lemma attempt_loop_offline (len : nat) i s :
  (i + Z.of_nat len = retry_attempts cfg)%Z →
  st_net s = [] →
  ∃ t,
    attempt_loop unzip cfg url file_dir zip_path zip_filename csv_filename
      (seqZ i (Z.of_nat len)) s
    = (Return false, s, t)
    ∧ timeline t = retry_timeline cfg url len.
Proof.
  revert i. induction len as [|len IH]; intros i Hi Hnet.
  - exists []. done.
  - rewrite Nat2Z.inj_succ, seqZ_cons by lia.
    replace (Z.pred (Z.succ (Z.of_nat len))) with (Z.of_nat len) by lia.
    cbn [attempt_loop].
    destruct (attempt_once_offline i s Hnet) as (t1 & Hrun & Htl).
    rewrite (bind_Return _ _ _ _ _ _ Hrun).
    destruct (Z.ltb_spec i (retry_attempts cfg - 1)) as [Hlt|Hge].
    + destruct len as [|len']; [lia|].
      destruct (IH (Z.succ i)) as (t2 & Hrest & Htl2); [lia|done|].
      rewrite Hrest. mstep. eexists. split; [done|].
      rewrite timeline_app, Htl, Htl2. done.
    + assert (len = 0)%nat as -> by lia.
      mstep. eexists. split; [done|]. by rewrite app_nil_r, Htl.
Qed.

End Offline.

Section SteadyTheorems.

Context (unzip : string → list (string * string) * option exn).
Context (cfg : config).

Lemma download_file_skips symbol data_type date interval url s :
  build_download_url (base_url cfg) data_type symbol date interval = Return url →
  overwrite_existing cfg = false →
  complete_csv (st_files s) (csv_path_of cfg symbol data_type date interval) = true →
  ∃ t, download_file unzip cfg symbol data_type date interval s = (Return true, s, t)
       ∧ timeline t = [].
Proof.
  intros Hurl Hover Hcsv.
  rewrite (download_file_resolved _ _ _ _ _ _ url s Hurl), Hover, Hcsv. simpl.
  eexists. split; [reflexivity|done].
Qed.

Lemma download_file_offline symbol data_type date interval url s :
  build_download_url (base_url cfg) data_type symbol date interval = Return url →
  result_of (is_download_needed (csv_path_of cfg symbol data_type date interval)
               (overwrite_existing cfg) s) = Return true →
  (0 ≤ retry_attempts cfg)%Z →
  st_net s = [] →
  ∃ t, download_file unzip cfg symbol data_type date interval s = (Return false, s, t)
       ∧ timeline t = retry_timeline cfg url (Z.to_nat (retry_attempts cfg)).
Proof.
  intros Hurl Hneed Hn Hnet.
  rewrite (download_file_needed _ _ _ _ _ _ url s Hurl Hneed). unfold range.
  destruct (attempt_loop_offline unzip cfg url
              (file_dir_of cfg symbol data_type interval)
              (zip_path_of cfg symbol data_type date interval)
              (zip_filename_of symbol data_type date interval)
              (csv_filename_of symbol data_type date interval)
              (Z.to_nat (retry_attempts cfg)) 0 s) as (t & Hrun & Htl); [lia|done|].
  rewrite Z2Nat.id in Hrun by done. eauto.
Qed.



End SteadyTheorems.

(* ================================================================== *)
(** ** The example deployment, once more *)

Lemma download_file_paces_its_requests_witness :
  let s := Sample.disk ∅ [Sample.status 500; Sample.ok Sample.archive] in
  let run := download_file Sample.unzip Sample.cfg "BTCUSDT" "aggTrades" "2024-08-01" None s in
  ∃ k : nat,
    (Z.of_nat k ≤ 3)%Z
    ∧ http_requests (trace_of run) = replicate k Sample.url
    ∧ sleeps_at Backoff (trace_of run) = replicate (k - 1) (retry_delay Sample.cfg)
    ∧ st_net (state_of run) = drop k (st_net s).
Proof.
  intros s run.
  destruct (download_file_paces_its_requests Sample.unzip Sample.cfg
              "BTCUSDT" "aggTrades" "2024-08-01" None Sample.url s)
    as (k & Hle & _ & Hreq & _ & Hback & Hnet); [evaluate|].
  exists k. split; [exact Hle|]. split; [exact Hreq|]. split; [exact Hback|exact Hnet].
Defined.

Lemma missing_interval_fails_the_task_witness :
  let s := Sample.disk ∅ [Sample.ok Sample.archive] in
  download_file Sample.unzip Sample.cfg "BTCUSDT" "klines" "2024-08-01" None s
  = (Return false, s, [EvLog ERROR (MsgErrorInDownloadFile ValueError)]).
Proof.
  intros s.
  apply (missing_interval_fails_the_task Sample.unzip Sample.cfg
           "BTCUSDT" "klines" "2024-08-01" s).
  evaluate.
Defined.





Lemma generated_dates_parse_back_witness :
  let dates := ["2024-02-28"; "2024-02-29"; "2024-03-01"] in
  ∃ b,
    Calendar.strptime "2024-03-01" = Some b
    ∧ Calendar.strptime "2024-02-29" = Some (738944 + 1)%Z
    ∧ NoDup dates
    ∧ Z.of_nat (length dates) = (b - 738944 + 1)%Z.
Proof.
  intros dates.
  destruct (generated_dates_parse_back "2024-02-28" "2024-03-01" (Sample.disk ∅ [])
              738944%Z dates)
    as (b & Hb & Hith & Hnodup & Hlen); [evaluate | vm_compute; discriminate | evaluate |].
  exists b. split; [exact Hb|].
  split; [exact (proj1 (Hith 1%nat "2024-02-29" eq_refl))|].
  split; [exact Hnodup|]. apply Hlen. discriminate.
Defined.




Lemma dates_keep_their_files_apart_witness :
  zip_path_of Sample.cfg "BTCUSDT" "klines" "2024-08-01" (Some "1h")
  ≠ zip_path_of Sample.cfg "BTCUSDT" "klines" "2024-08-02" (Some "1h")
  ∧ csv_path_of Sample.cfg "BTCUSDT" "klines" "2024-08-01" (Some "1h")
    ≠ csv_path_of Sample.cfg "BTCUSDT" "klines" "2024-08-02" (Some "1h").
Proof.
  destruct (dates_keep_their_files_apart Sample.cfg "BTCUSDT" "klines" (Some "1h")
              "2024-08-01" "2024-08-02")
    as (_ & Hzip & Hcsv & _); [discriminate|].
  split; [exact Hzip|exact Hcsv].
Defined.


